(** * FEMA wildfire funding finder: filter building, paginated fetch,
      keyword classification and grouped summary

    A shallow embedding of [app_streamlit_fema_water.py].  The four functions
    of the pipeline ([build_filter], [fetch_all], [is_water_utility],
    [summarize]) are written as Rocq functions over the values the Python
    code handles; the properties of the specification follow the
    definitions.

    Conventions of the embedding:
    - text is a [string] of 7-bit ASCII characters; [upper], [lower] and
      [strip] act as Python's [str] methods do on such text;
    - Python numbers are rationals ([Q]): an [int] is a rational with
      denominator 1, and a [float] is the rational it denotes, so the
      rounding of float arithmetic is not part of the model;
    - an exception is a value of [exn] returned in place of the result. *)

From Stdlib Require Import ZArith QArith Qminmax List String Ascii Bool Lia.
From Stdlib Require Import Sorting.Sorted DecimalString DecimalPos DecimalZ.
From Stdlib Require Import Sorting.Permutation.
Import ListNotations.

Local Open Scope string_scope.
Local Open Scope Z_scope.

#[local] Set Warnings "-register-all".

(** ** Python text operations *)

Module Py.

(** [not s]: the empty string is falsy. *)
Definition is_empty (s : string) : bool :=
  match s with EmptyString => true | String _ _ => false end.

(** [str.isspace] on ASCII: tab, line feed, vertical tab, form feed,
    carriage return, the four separators 0x1c-0x1f and the space. *)
Definition is_space (c : ascii) : bool :=
  let n := N_of_ascii c in
  ((9 <=? n) && (n <=? 13) || (28 <=? n) && (n <=? 32))%N.

Definition upper_char (c : ascii) : ascii :=
  let n := N_of_ascii c in
  if ((97 <=? n) && (n <=? 122))%N then ascii_of_N (n - 32) else c.

Definition lower_char (c : ascii) : ascii :=
  let n := N_of_ascii c in
  if ((65 <=? n) && (n <=? 90))%N then ascii_of_N (n + 32) else c.

Fixpoint smap (f : ascii -> ascii) (s : string) : string :=
  match s with
  | EmptyString => EmptyString
  | String c s' => String (f c) (smap f s')
  end.

(** [s.upper()] and [s.lower()]. *)
Definition upper : string -> string := smap upper_char.
Definition lower : string -> string := smap lower_char.

Fixpoint lstrip (s : string) : string :=
  match s with
  | EmptyString => EmptyString
  | String c s' => if is_space c then lstrip s' else s
  end.

Fixpoint rstrip (s : string) : string :=
  match s with
  | EmptyString => EmptyString
  | String c s' =>
      match rstrip s' with
      | EmptyString => if is_space c then EmptyString else String c EmptyString
      | r => String c r
      end
  end.

(** [s.strip()]. *)
Definition strip (s : string) : string := lstrip (rstrip s).

(** [sep.join(items)]. *)
Fixpoint join (sep : string) (items : list string) : string :=
  match items with
  | [] => ""
  | [x] => x
  | x :: rest => x ++ sep ++ join sep rest
  end.

(** [s.startswith(x)]. *)
Fixpoint startswith (x s : string) : bool :=
  match x, s with
  | EmptyString, _ => true
  | String a x', String b s' => Ascii.eqb a b && startswith x' s'
  | String _ _, EmptyString => false
  end.

(** [x in s] for two strings: [x] occurs in [s] at some position. *)
Fixpoint contains (x s : string) : bool :=
  startswith x s ||
  match s with
  | EmptyString => false
  | String _ s' => contains x s'
  end.

(** [s[:n]]. *)
Fixpoint take (n : nat) (s : string) : string :=
  match n, s with
  | S n', String c s' => String c (take n' s')
  | _, _ => EmptyString
  end.

(** [str(n)] for an [int]. *)
Definition str_int (n : Z) : string := NilZero.string_of_int (Z.to_int n).

(** [any(f(x) for x in items)]. *)
Definition any {A} (f : A -> bool) (items : list A) : bool := existsb f items.

End Py.

(** ** build_filter *)

Definition category_term (c : string) : string :=
  "damageCategoryCode eq '" ++ Py.upper (Py.strip c) ++ "'".

Definition state_term (s : string) : string :=
  "stateAbbreviation eq '" ++ Py.upper (Py.strip s) ++ "'".

(** [c.strip()] used as a condition. *)
Definition nonblank (c : string) : bool := negb (Py.is_empty (Py.strip c)).

Definition incident_clause (incident_contains : bool) : string :=
  if incident_contains
  then "(substringof('Fire',incidentType) or substringof('Wildfire',incidentType))"
  else "incidentType eq 'Fire'".

(** The clause appended by lines 34-37: nothing for an empty list, and
    nothing when the joined text [cat_or] is empty. *)
Definition category_clause (categories : list string) : list string :=
  match categories with
  | [] => []
  | _ =>
      let cat_or := Py.join " or " (map category_term (filter nonblank categories)) in
      if Py.is_empty cat_or then [] else ["(" ++ cat_or ++ ")"]
  end.

(** The clause appended by lines 39-42: nothing for [None] or an empty
    list, and nothing when the list [state_filters] is empty. *)
Definition state_clause (states : option (list string)) : list string :=
  match states with
  | None | Some [] => []
  | Some l =>
      match map state_term (filter nonblank l) with
      | [] => []
      | state_filters => ["(" ++ Py.join " or " state_filters ++ ")"]
      end
  end.

(** Lines 43-46: [None] and the empty string are both falsy. *)
Definition date_clause (op : string) (d : option string) : list string :=
  match d with
  | None | Some EmptyString => []
  | Some v => ["dateObligated " ++ op ++ " '" ++ v ++ "'"]
  end.

(** The list [parts] at line 47. *)
Definition filter_parts (states : option (list string)) (start end_ : option string)
    (categories : list string) (incident_contains : bool) : list string :=
  ([incident_clause incident_contains]
     ++ category_clause categories
     ++ state_clause states
     ++ date_clause "ge" start
     ++ date_clause "le" end_)%list.

Definition build_filter (states : option (list string)) (start end_ : option string)
    (categories : list string) (incident_contains : bool) : string :=
  Py.join " and " (filter_parts states start end_ categories incident_contains).

(** ** Values exchanged with the remote source *)

(** A decoded JSON value.  [JNull] is Python's [None]; an object keeps its
    members in the order [dict.items()] yields them. *)
Inductive json : Type :=
| JNull
| JBool (b : bool)
| JNum (q : Q)
| JStr (s : string)
| JList (items : list json)
| JObj (members : list (string * json)).

(** [d.get(key)] on the members of a dict. *)
Fixpoint get (key : string) (members : list (string * json)) : option json :=
  match members with
  | [] => None
  | (k, v) :: rest => if String.eqb k key then Some v else get key rest
  end.

(** Truth value of a Python object. *)
Definition truthy (v : json) : bool :=
  match v with
  | JNull => false
  | JBool b => b
  | JNum q => negb (Qeq_bool q 0)
  | JStr s => negb (Py.is_empty s)
  | JList [] => false
  | JList (_ :: _) => true
  | JObj [] => false
  | JObj (_ :: _) => true
  end.

(** What one [session.get] produces: a transport failure, or a response
    with its status code, its text, and the value [resp.json()] decodes
    ([None] when the text is not JSON). *)
Inductive reply : Type :=
| ConnectionFailure
| Response (status_code : Z) (text : string) (body : option json).

Inductive exn : Type :=
| RuntimeError (msg : string)
| RequestException
| JSONDecodeError
| AttributeError
| TypeError
| KeyError (key : string).

Inductive py_result (A : Type) : Type :=
| Ok (a : A)
| Raise (e : exn).
Arguments Ok {A} a.
Arguments Raise {A} e.

(** What the outside world sees of a run: the requests sent and the
    fractions handed to the progress observer, in order. *)
Inductive event : Type :=
| Requested (url : string)
| Reported (fraction : Q).

(** A computation that logs events and may raise. *)
Definition M (A : Type) : Type := list event * py_result A.

Definition ret {A} (a : A) : M A := ([], Ok a).
Definition throw {A} (e : exn) : M A := ([], Raise e).
Definition emit (e : event) : M unit := ([e], Ok tt).
Definition bind {A B} (m : M A) (f : A -> M B) : M B :=
  match m with
  | (t, Ok a) => let (t', r) := f a in ((t ++ t')%list, r)
  | (t, Raise e) => (t, Raise e)
  end.

Notation "x <- m ;; k" := (bind m (fun x => k))
  (at level 61, m at next level, right associativity).
Notation "m ;;; k" := (bind m (fun _ => k))
  (at level 61, right associativity).

(** ** The request string *)

Definition API_BASE : string :=
  "https://www.fema.gov/api/open/v2/PublicAssistanceGrantAwardActivities".

Definition top : Z := 1000.

Definition hex_digit (n : N) : ascii :=
  if (n <? 10)%N then ascii_of_N (48 + n) else ascii_of_N (55 + n).

Definition is_alnum (c : ascii) : bool :=
  let n := N_of_ascii c in
  ((48 <=? n) && (n <=? 57) || (65 <=? n) && (n <=? 90) || (97 <=? n) && (n <=? 122))%N.

Fixpoint mem_char (c : ascii) (s : string) : bool :=
  match s with
  | EmptyString => false
  | String d s' => Ascii.eqb c d || mem_char c s'
  end.

(** [urllib.parse.quote_plus(s, safe)]: letters, digits, [_.-~] and the
    characters of [safe] stay, a space becomes [+], anything else is
    percent-encoded. *)
Fixpoint quote_plus (safe : string) (s : string) : string :=
  match s with
  | EmptyString => EmptyString
  | String c s' =>
      let rest := quote_plus safe s' in
      if is_alnum c || mem_char c "_.-~" || mem_char c safe then String c rest
      else if Ascii.eqb c " " then String "+" rest
      else
        let n := N_of_ascii c in
        String "%" (String (hex_digit (n / 16)) (String (hex_digit (n mod 16)) rest))
  end.

(** [urllib.parse.urlencode(params, safe=safe)]. *)
Definition urlencode (params : list (string * string)) (safe : string) : string :=
  Py.join "&"
    (map (fun kv => quote_plus safe (fst kv) ++ "=" ++ quote_plus safe (snd kv)) params).

(** Lines 53-61 and 66-67: the parameters of the request at offset
    [skip].  [select_fields] is optional, and an empty list is falsy. *)
Definition request_params (filters : string) (select_fields : option (list string))
    (skip : Z) : list (string * string) :=
  ([("$filter", filters); ("$top", Py.str_int top); ("$skip", Py.str_int skip);
    ("$format", "json"); ("$count", "true")]
   ++ match select_fields with
      | None | Some [] => []
      | Some fields => [("$select", Py.join "," fields)]
      end)%list.

(** Line 68. *)
Definition request_url (filters : string) (select_fields : option (list string))
    (skip : Z) : string :=
  API_BASE ++ "?" ++ urlencode (request_params filters select_fields skip) "(),':".

(** ** fetch_all *)

(** The variables of the loop. *)
Record loop_state : Type := mk_state {
  records : list json;
  skip : Z;
  total_count : json;
  last_url : string
}.

Definition initial_state : loop_state :=
  {| records := []; skip := 0; total_count := JNull; last_url := "" |}.

(** Lines 70-73: a status other than 200 raises; otherwise the body is
    decoded. *)
Definition receive (r : reply) : M json :=
  match r with
  | ConnectionFailure => throw RequestException
  | Response status_code text body =>
      if negb (status_code =? 200)
      then throw (RuntimeError ("HTTP " ++ Py.str_int status_code ++ ": " ++ Py.take 500 text))
      else match body with
           | None => throw JSONDecodeError
           | Some payload => ret payload
           end
  end.

(** [payload.items()] and [md.get]: only a dict has them. *)
Definition items (payload : json) : M (list (string * json)) :=
  match payload with
  | JObj members => ret members
  | _ => throw AttributeError
  end.

(** Lines 74-78: the key of the first list-valued member, if any. *)
Fixpoint find_data_key (members : list (string * json)) : option string :=
  match members with
  | [] => None
  | (k, JList _) :: _ => Some k
  | _ :: rest => find_data_key rest
  end.

(** Line 79: [payload.get(data_key, [])]; no member has the key [None]. *)
Definition page_rows (members : list (string * json)) : list json :=
  match find_data_key members with
  | None => []
  | Some k =>
      match get k members with
      | Some (JList rows) => rows
      | _ => []
      end
  end.

(** Lines 81-82. *)
Definition read_count (members : list (string * json)) : M json :=
  md <- items (match get "metadata" members with Some md => md | None => JObj [] end) ;;
  ret (match get "count" md with Some c => c | None => JNum 0 end).

(** [max(total_count, 1)]: the first argument unless [1] is greater;
    [True] counts as 1; text, lists and dicts do not compare with an int. *)
Definition max_one (total : json) : M Q :=
  match total with
  | JNum q => ret (if Qle_bool 1 q then q else 1%Q)
  | JBool _ => ret 1%Q
  | _ => throw TypeError
  end.

(** [min(1.0, n / d)]: the first argument unless the second is smaller. *)
Definition fraction (n : nat) (d : Q) : Q :=
  let x := (inject_Z (Z.of_nat n) / d)%Q in
  if Qle_bool 1 x then 1%Q else x.

(** Lines 80-82: the total count is read from the payload as long as it
    is [None]. *)
Definition current_total (known : json) (members : list (string * json)) : M json :=
  match known with
  | JNull => read_count members
  | _ => ret known
  end.

(** Lines 87-88, with [n] the number of records accumulated so far;
    [progress] tells whether an observer was given. *)
Definition notify (progress : bool) (total : json) (n : nat) : M unit :=
  if progress && truthy total
  then d <- max_one total ;; emit (Reported (fraction n d))
  else ret tt.

Inductive control : Type := Continue | Break.

(** One pass through the body of [while True] (lines 66-90), given the
    reply to its request. *)
Definition iteration (filters : string) (select_fields : option (list string))
    (progress : bool) (r : reply) (st : loop_state) : M (control * loop_state) :=
  let url := request_url filters select_fields (skip st) in
  emit (Requested url) ;;;
  payload <- receive r ;;
  members <- items payload ;;
  let rows := page_rows members in
  total <- current_total (total_count st) members ;;
  match rows with
  | [] => ret (Break, mk_state (records st) (skip st) total url)
  | _ :: _ =>
      let records' := (records st ++ rows)%list in
      let skip' := skip st + top in
      notify progress total (List.length records') ;;;
      ret (if Z.of_nat (List.length rows) <? top then Break else Continue,
           mk_state records' skip' total url)
  end.

(** How a run against a finite sequence of replies ends: the function
    returned, raised, or the loop asks for a request the sequence does not
    answer. *)
Inductive outcome : Type :=
| Returned (df : list json) (url : string) (total : json)
| Raised (e : exn)
| Awaiting (st : loop_state).

(** Line 92: [total_count or 0]. *)
Definition or_zero (total : json) : json := if truthy total then total else JNum 0.

(** The loop, the [n]-th request being answered by the [n]-th reply.  The
    frame [pd.DataFrame.from_records(records)] of line 91 is represented by
    [records], the rows it is built from; what [from_records] makes of rows
    that are not objects is not part of the model. *)
Fixpoint fetch_loop (filters : string) (select_fields : option (list string))
    (progress : bool) (replies : list reply) (st : loop_state) : list event * outcome :=
  match replies with
  | [] => ([], Awaiting st)
  | r :: rest =>
      match iteration filters select_fields progress r st with
      | (t, Raise e) => (t, Raised e)
      | (t, Ok (Break, st')) =>
          (t, Returned (records st') (last_url st') (or_zero (total_count st')))
      | (t, Ok (Continue, st')) =>
          let (t', o) := fetch_loop filters select_fields progress rest st' in
          ((t ++ t')%list, o)
      end
  end.

Definition fetch_all (filters : string) (select_fields : option (list string))
    (progress : bool) (replies : list reply) : list event * outcome :=
  fetch_loop filters select_fields progress replies initial_state.

(** ** Frames of award records *)

(** A cell of a text column: [None] (a JSON null), [NaN] (the record had no
    such member) or a string. *)
Inductive text_cell : Type :=
| TNone
| TNaN
| TStr (s : string).

(** A cell of the amount column, which may also hold a number. *)
Inductive num_cell : Type :=
| NNone
| NNaN
| NNum (q : Q)
| NStr (s : string).

(** The fields of an award record that the pipeline reads. *)
Record AwardRecord : Type := mk_award {
  stateAbbreviation : text_cell;
  applicantId : text_cell;
  applicantName : text_cell;
  projectTitle : text_cell;
  dateObligated : text_cell;
  federalShareObligated : num_cell
}.

(** A frame: the labels of its columns and its rows.  A field of a row
    counts only when its label is among the columns. *)
Record DataFrame : Type := mk_frame {
  columns : list string;
  rows : list AwardRecord
}.

(** A row handed to a row-wise function: the labels and the values. *)
Record Series : Type := mk_series {
  index : list string;
  values : AwardRecord
}.

Definition has_label (labels : list string) (label : string) : bool :=
  existsb (String.eqb label) labels.

(** [row.get(label)]: [None] when the label is absent. *)
Definition row_get (field : AwardRecord -> text_cell) (label : string)
    (row : Series) : text_cell :=
  if has_label (index row) label then field (values row) else TNone.

(** [str(v or "")]: [None] and the empty string give the empty string;
    [NaN] is truthy and prints as [nan]. *)
Definition str_or_empty (v : text_cell) : string :=
  match v with
  | TNone => ""
  | TNaN => "nan"
  | TStr s => s
  end.

(** [df.empty]: no rows or no columns. *)
Definition empty (df : DataFrame) : bool :=
  match rows df, columns df with
  | [], _ | _, [] => true
  | _, _ => false
  end.

(** ** is_water_utility *)

Definition is_water_utility (row : Series) (include exclude : list string) : bool :=
  let name := Py.lower (str_or_empty (row_get applicantName "applicantName" row)) in
  let title := Py.lower (str_or_empty (row_get projectTitle "projectTitle" row)) in
  if Py.any (fun x => Py.contains x name) exclude then false
  else
    let text := name ++ " " ++ title in
    Py.any (fun x => Py.contains x text) include.

(** ** Numeric coercion *)

Definition is_digit (c : ascii) : bool :=
  let n := N_of_ascii c in ((48 <=? n) && (n <=? 57))%N.

(** Reads a run of decimal digits: its value on top of [acc], how many
    digits were read, and the rest of the text. *)
Fixpoint read_digits (acc : Z) (s : string) : Z * nat * string :=
  match s with
  | String c s' =>
      if is_digit c
      then let '(v, n, rest) := read_digits (10 * acc + Z.of_N (N_of_ascii c - 48)) s' in
           (v, S n, rest)
      else (acc, O, s)
  | EmptyString => (acc, O, s)
  end.

Definition read_sign (s : string) : Z * string :=
  match s with
  | String "-" s' => (-1, s')
  | String "+" s' => (1, s')
  | _ => (1, s)
  end.

(** An optional exponent part. *)
Definition read_exponent (s : string) : option (Z * string) :=
  match s with
  | String c s' =>
      if Ascii.eqb c "e" || Ascii.eqb c "E"
      then let (sg, s1) := read_sign s' in
           let '(v, n, rest) := read_digits 0 s1 in
           match n with O => None | S _ => Some (sg * v, rest) end
      else Some (0, s)
  | EmptyString => Some (0, s)
  end.

(** The blanks the number reader of pandas skips around a literal: the
    space and the characters 0x09 to 0x0d, fewer than [str.strip] removes. *)
Definition is_blank (c : ascii) : bool :=
  let n := N_of_ascii c in ((n =? 32) || (9 <=? n) && (n <=? 13))%N.

Fixpoint skip_blanks (s : string) : string :=
  match s with
  | String c s' => if is_blank c then skip_blanks s' else s
  | EmptyString => s
  end.

(** The decimal literals read as numbers: surrounding blanks, a sign,
    digits with an optional fraction, an optional exponent.  Anything else
    is not a number here; the spellings of infinity, which [Q] cannot
    hold, are outside the model. *)
Definition parse_number (s : string) : option Q :=
  let (sg, s1) := read_sign (skip_blanks s) in
  let '(ip, ni, s2) := read_digits 0 s1 in
  let '(fp, nf, s3) :=
    match s2 with
    | String "." s2' => read_digits 0 s2'
    | _ => (0, O, s2)
    end in
  match (ni + nf)%nat with
  | O => None
  | S _ =>
      match read_exponent s3 with
      | Some (e, rest) =>
          match skip_blanks rest with
          | EmptyString =>
              Some ((inject_Z sg * (inject_Z ip + inject_Z fp / inject_Z (10 ^ Z.of_nat nf)))
                    * Qpower (inject_Z 10) e)%Q
          | String _ _ => None
          end
      | None => None
      end
  end.

(** [pd.to_numeric(..., errors="coerce")] on one cell; [None] is [NaN]. *)
Definition to_numeric (v : num_cell) : option Q :=
  match v with
  | NNone | NNaN => None
  | NNum q => Some q
  | NStr s => parse_number s
  end.

(** [.fillna(0.0)]. *)
Definition fillna_zero (v : option Q) : Q :=
  match v with Some q => q | None => 0%Q end.

(** ** Grouping *)

(** A group label; [None] is a missing value, which [dropna=False] keeps. *)
Definition label : Type := option string.

Definition na (v : text_cell) : label :=
  match v with
  | TStr s => Some s
  | TNone | TNaN => None
  end.

(** Order of the labels of one column: text by code points, missing
    values last. *)
Definition label_compare (a b : label) : comparison :=
  match a, b with
  | Some x, Some y => String.compare x y
  | Some _, None => Lt
  | None, Some _ => Gt
  | None, None => Eq
  end.

Definition key : Type := (label * label * label)%type.

Definition key_compare (a b : key) : comparison :=
  let '(a1, a2, a3) := a in
  let '(b1, b2, b3) := b in
  match label_compare a1 b1 with
  | Eq => match label_compare a2 b2 with
          | Eq => label_compare a3 b3
          | c => c
          end
  | c => c
  end.

Definition key_eqb (a b : key) : bool :=
  match key_compare a b with Eq => true | _ => false end.

(** Adds a key to an ascending list of distinct keys. *)
Fixpoint insert_key (k : key) (l : list key) : list key :=
  match l with
  | [] => [k]
  | h :: t =>
      match key_compare k h with
      | Lt => k :: l
      | Eq => l
      | Gt => h :: insert_key k t
      end
  end.

Definition group_keys (keys : list key) : list key :=
  fold_left (fun acc k => insert_key k acc) keys [].

(** ** summarize *)

(** A row of [sdf] after lines 107-108: the record, its amount as a number
    and its date as an instant ([None] for [NaT]). *)
Record prepared : Type := mk_prepared {
  award : AwardRecord;
  share : Q;
  obligated : option Z
}.

(** A row of the summary; [D] is the type of the two date columns, an
    instant before line 116 and text after line 117. *)
Record summary_row (D : Type) : Type := mk_summary {
  state : label;
  summaryApplicantId : label;
  summaryApplicantName : label;
  projectCount : Z;
  totalFederalShareObligated : Q;
  firstDateObligated : D;
  lastDateObligated : D
}.
Arguments mk_summary {D}.
Arguments state {D}.
Arguments summaryApplicantId {D}.
Arguments summaryApplicantName {D}.
Arguments projectCount {D}.
Arguments totalFederalShareObligated {D}.
Arguments firstDateObligated {D}.
Arguments lastDateObligated {D}.

Definition UtilitySummary : Type := summary_row string.

(** What [summarize] returns: the frame it was given, or a summary. *)
Inductive frame : Type :=
| Records (df : DataFrame)
| Summary (groups : list UtilitySummary).

Definition summary_columns : list string :=
  ["state"; "applicantId"; "applicantName"; "projectCount";
   "totalFederalShareObligated"; "firstDateObligated"; "lastDateObligated"].

Definition frame_columns (f : frame) : list string :=
  match f with
  | Records df => columns df
  | Summary _ => summary_columns
  end.

Definition key_of (p : prepared) : key :=
  (na (stateAbbreviation (award p)), na (applicantId (award p)),
   na (applicantName (award p))).

(** [groupby(keys, dropna=False)], with its default [sort=True]: one group
    per distinct key, the groups in ascending key order, the rows of a
    group in frame order. *)
Definition groupby (sdf : list prepared) : list (key * list prepared) :=
  map (fun k => (k, filter (fun p => key_eqb (key_of p) k) sdf))
      (group_keys (map key_of sdf)).

Definition notna (v : text_cell) : bool :=
  match na v with Some _ => true | None => false end.

(** The aggregation ["count"]: the cells that are not missing. *)
Definition count (cells : list text_cell) : Z :=
  Z.of_nat (List.length (filter notna cells)).

(** The aggregation ["sum"]. *)
Definition sum (amounts : list Q) : Q :=
  fold_left Qplus amounts 0%Q.

(** The aggregations ["min"] and ["max"] of a date column: [NaT] is
    skipped, and is the result when nothing else is there. *)
Definition extreme (pick : Z -> Z -> Z) (dates : list (option Z)) : option Z :=
  fold_left (fun acc d =>
               match acc, d with
               | Some a, Some b => Some (pick a b)
               | None, _ => d
               | _, None => acc
               end) dates None.

(** Lines 109-114 for one group. *)
Definition agg (g : key * list prepared) : summary_row (option Z) :=
  let '((st, id, name), members) := g in
  {| state := st;
     summaryApplicantId := id;
     summaryApplicantName := name;
     projectCount := count (map (fun p => applicantId (award p)) members);
     totalFederalShareObligated := sum (map share members);
     firstDateObligated := extreme Z.min (map obligated members);
     lastDateObligated := extreme Z.max (map obligated members) |}.

(** Whether [a] may stand before [b] under
    [sort_values(["state","totalFederalShareObligated"], ascending=[True, False])]. *)
Definition sort_le {D} (a b : summary_row D) : bool :=
  match label_compare (state a) (state b) with
  | Lt => true
  | Gt => false
  | Eq => Qle_bool (totalFederalShareObligated b) (totalFederalShareObligated a)
  end.

Fixpoint sort_insert {D} (x : summary_row D) (l : list (summary_row D)) :=
  match l with
  | [] => [x]
  | y :: t => if sort_le x y then x :: l else y :: sort_insert x t
  end.

(** The sort on several columns is stable: rows that agree on both
    columns keep the order they came in. *)
Fixpoint sort_values {D} (l : list (summary_row D)) : list (summary_row D) :=
  match l with
  | [] => []
  | x :: t => sort_insert x (sort_values t)
  end.

Section Summarize.

(** Two pandas conversions are left open: what
    [pd.to_datetime(..., errors="coerce")] reads in a cell ([None] for
    [NaT]), and the text [.dt.date.astype(str)] gives for an instant.  The
    column of dates is taken to convert to a datetime column, as it does when
    its dates carry one UTC offset; a column that does not makes [.dt] raise
    at line 116, a case [summarize] below leaves out. *)
Variable to_datetime : text_cell -> option Z.
Variable date_str : option Z -> string.

(** Lines 107-108 on one row. *)
Definition prepare (r : AwardRecord) : prepared :=
  {| award := r;
     share := fillna_zero (to_numeric (federalShareObligated r));
     obligated := to_datetime (dateObligated r) |}.

(** Lines 116-117 on one row. *)
Definition render (g : summary_row (option Z)) : UtilitySummary :=
  {| state := state g;
     summaryApplicantId := summaryApplicantId g;
     summaryApplicantName := summaryApplicantName g;
     projectCount := projectCount g;
     totalFederalShareObligated := totalFederalShareObligated g;
     firstDateObligated := date_str (firstDateObligated g);
     lastDateObligated := date_str (lastDateObligated g) |}.

(** Lines 105-106: the rows the classifier keeps. *)
Definition matching (df : DataFrame) (include exclude : list string) : list AwardRecord :=
  filter (fun r => is_water_utility (mk_series (columns df) r) include exclude) (rows df).

(** The first label of [needed] that is not a column, as selecting or
    grouping by it raises [KeyError]. *)
Definition missing_column (df : DataFrame) (needed : list string) : option string :=
  find (fun c => negb (has_label (columns df) c)) needed.

Definition summarize (df : DataFrame) (include exclude : list string) : py_result frame :=
  if empty df then Ok (Records df)
  else
    match missing_column df ["federalShareObligated"; "dateObligated";
                             "stateAbbreviation"; "applicantId"; "applicantName"] with
    | Some c => Raise (KeyError c)
    | None =>
        let sdf := map prepare (matching df include exclude) in
        let grp := map agg (groupby sdf) in
        let grp := sort_values grp in
        Ok (Summary (map render grp))
    end.

End Summarize.

(** ** The run handler: reading the form *)

Definition DEFAULT_INCLUDE : list string :=
  ["water"; "water district"; "water dept"; "water department"; "water authority";
   "water utility"; "municipal water"; "water & sewer"; "water and sewer";
   "wastewater"; "waste water"; "sanitation"; "sanitary"; "sewer";
   "wtp"; "water treatment"; "waterworks"; "water works"; "aqueduct";
   "water supply"; "water system"; "irrigation district"].

Definition DEFAULT_EXCLUDE : list string := [].

Definition ALL_CATEGORIES : list string := ["A"; "B"; "C"; "D"; "E"; "F"; "G"].

(** [s.split(sep)] for a separator of one character: the pieces between
    the occurrences of [sep], empty pieces included. *)
Fixpoint split (sep : ascii) (s : string) : list string :=
  match s with
  | EmptyString => [EmptyString]
  | String c s' =>
      if Ascii.eqb c sep then EmptyString :: split sep s'
      else match split sep s' with
           | piece :: pieces => String c piece :: pieces
           | [] => [String c EmptyString]
           end
  end.

(** Line 143: the state codes typed into the form, [None] when the box is
    empty. *)
Definition parse_states (states_input : string) : option (list string) :=
  if Py.is_empty states_input then None
  else Some (map (fun s => Py.upper (Py.strip s))
                 (filter nonblank (split "," states_input))).

(** Lines 158-159: the keywords typed into a keyword box. *)
Definition parse_keywords (text : string) : list string :=
  map (fun x => Py.lower (Py.strip x)) (filter nonblank (split "," text)).

(** Lines 133-134: the text a keyword box starts with. *)
Definition keyword_text (keywords : list string) : string := Py.join "," keywords.

(** Line 146: the filter of a run, from the form. *)
Definition handler_filter (states_input : string) (start end_ : option string)
    (cats : list string) (incident_contains : bool) : string :=
  build_filter (parse_states states_input) start end_ cats incident_contains.

(** * Vocabulary of the properties *)

(** [x] occurs in [s]: some text before it and some after it make up [s]. *)
Definition occurs_in (x s : string) : Prop :=
  exists pre post, s = pre ++ x ++ post.

(** The lower-cased applicant name and project title of a row. *)
Definition name_of (row : Series) : string :=
  Py.lower (str_or_empty (row_get applicantName "applicantName" row)).

Definition title_of (row : Series) : string :=
  Py.lower (str_or_empty (row_get projectTitle "projectTitle" row)).

Definition city_water_department : Series :=
  mk_series ["applicantName"; "projectTitle"]
    (mk_award TNone TNone (TStr "City Water Department") (TStr "Pump repair") TNone NNone).

(** The code of an entry as it is written into a clause. *)
Definition code_of (entry : string) : string := Py.upper (Py.strip entry).

(** A code that reached a clause: not empty, with no blank at either end
    and no lower-case letter. *)
Definition normal_code (k : string) : Prop :=
  k <> "" /\ Py.strip k = k /\ Py.upper k = k.

(** The codes a list of entries contributes, in order. *)
Definition emitted_codes (entries : list string) : list string :=
  map code_of (filter nonblank entries).

(** A parenthesised group of alternatives on one field, absent when there
    is no code. *)
Definition group (field : string) (codes : list string) : list string :=
  match codes with
  | [] => []
  | _ => ["(" ++ Py.join " or " (map (fun k => field ++ " eq '" ++ k ++ "'") codes) ++ ")"]
  end.

Definition entries_of (states : option (list string)) : list string :=
  match states with Some l => l | None => [] end.

Definition requests_of (t : list event) : list string :=
  flat_map (fun e => match e with Requested url => [url] | Reported _ => [] end) t.

Definition reports_of (t : list event) : list Q :=
  flat_map (fun e => match e with Reported x => [x] | Requested _ => [] end) t.

(** The value of [max(total, 1)] when the comparison is possible. *)
Definition max_one_value (total : json) : Q :=
  match total with
  | JNum q => if Qle_bool 1 q then q else 1%Q
  | _ => 1%Q
  end.

(** The total count as lines 80-82 leave it, when they do not raise: the
    one already known, or the [count] of the [metadata] of this payload,
    0 when either is absent. *)
Definition next_total (known : json) (members : list (string * json)) : option json :=
  match known with
  | JNull =>
      match get "metadata" members with
      | None => Some (JNum 0)
      | Some (JObj md) =>
          Some (match get "count" md with Some c => c | None => JNum 0 end)
      | Some _ => None
      end
  | _ => Some known
  end.

(** The state after a page with rows. *)
Definition advance (st : loop_state) (page : list json) (total : json) (url : string)
  : loop_state :=
  mk_state (records st ++ page) (skip st + top) total url.

Definition after_page (page : list json) : control :=
  if Z.of_nat (List.length page) <? top then Break else Continue.

(** The rows a caller gets hold of. *)
Definition surfaced_rows (o : outcome) : list json :=
  match o with
  | Returned df _ _ => df
  | Raised _ | Awaiting _ => []
  end.

(** No list-valued member at the top level of a payload. *)
Definition no_list_member (members : list (string * json)) : bool :=
  forallb (fun kv => match snd kv with JList _ => false | _ => true end) members.

(** A page of the simulated source: a 200 response whose payload holds the
    reported total and the rows. *)
Definition page_reply (total : Z) (page : list json) : reply :=
  Response 200 ""
    (Some (JObj [("metadata", JObj [("count", JNum (inject_Z total))]);
                 ("PublicAssistanceGrantAwardActivities", JList page)])).

Definition sample_row : json := JObj [("applicantName", JStr "Paradise Irrigation District")].

(** A total count that [max] can compare with 1. *)
Definition comparable (total : json) : bool :=
  match total with
  | JNull | JBool _ | JNum _ => true
  | JStr _ | JList _ | JObj _ => false
  end.

(** A payload whose [metadata], if any, is an object with a comparable
    [count], if any. *)
Definition plain_metadata (members : list (string * json)) : bool :=
  match get "metadata" members with
  | None => true
  | Some (JObj md) =>
      match get "count" md with
      | None => true
      | Some c => comparable c
      end
  | Some _ => false
  end.

(** The reply is a well-formed page holding the rows [page]. *)
Definition delivers (r : reply) (page : list json) : Prop :=
  exists text members,
    r = Response 200 text (Some (JObj members))
    /\ page_rows members = page
    /\ plain_metadata members = true.

(** The [count] member of the [metadata] of a payload. *)
Definition count_member (members : list (string * json)) : option json :=
  match get "metadata" members with
  | Some (JObj md) => get "count" md
  | _ => None
  end.

(** The reply carries a total count that is not zero or empty. *)
Definition carries_count (r : reply) : bool :=
  match r with
  | Response _ _ (Some (JObj members)) =>
      match count_member members with
      | Some c => truthy c
      | None => false
      end
  | _ => false
  end.

Definition key_lt (a b : key) : Prop := key_compare a b = Lt.

(** Given the order [before] in which the rows come: [a] sorts strictly
    first, or the two tie and [a] came first. *)
Definition refined {D} (before : summary_row D -> summary_row D -> Prop)
    (a b : summary_row D) : Prop :=
  sort_le a b = true /\ (sort_le b a = false \/ before a b).

Definition summary_key {D} (g : summary_row D) : key :=
  (state g, summaryApplicantId g, summaryApplicantName g).

(** The order of the rows of a summary: by state ascending, a missing
    state last; within a state by total descending; within a state and a
    total by applicant identifier and then applicant name, ascending, a
    missing value last. *)
Definition comes_before (a b : UtilitySummary) : Prop :=
  label_compare (state a) (state b) = Lt
  \/ (state a = state b
      /\ (totalFederalShareObligated b < totalFederalShareObligated a)%Q)
  \/ (state a = state b
      /\ (totalFederalShareObligated a == totalFederalShareObligated b)%Q
      /\ (label_compare (summaryApplicantId a) (summaryApplicantId b) = Lt
          \/ (summaryApplicantId a = summaryApplicantId b
              /\ label_compare (summaryApplicantName a) (summaryApplicantName b) = Lt))).

(** The columns [summarize] selects or groups by. *)
Definition required_columns : list string :=
  ["federalShareObligated"; "dateObligated"; "stateAbbreviation"; "applicantId";
   "applicantName"].

(** The columns of a summary that an award frame does not have. *)
Definition derived_columns : list string :=
  ["state"; "projectCount"; "totalFederalShareObligated"; "firstDateObligated";
   "lastDateObligated"].

(** The summary as computed from the matching rows. *)
Definition grouped (to_datetime : text_cell -> option Z) (date_str : option Z -> string)
    (df : DataFrame) (include exclude : list string) : list UtilitySummary :=
  map (render date_str)
      (sort_values (map agg (groupby (map (prepare to_datetime)
                                          (matching df include exclude))))).

(** The conversions of dates for frames in which no date is given: every
    cell reads as [NaT], which prints as [NaT]. *)
Definition no_date : text_cell -> option Z := fun _ => None.
Definition nat_text : option Z -> string := fun _ => "NaT".

(** The columns the application selects. *)
Definition select_fields : list string :=
  ["stateAbbreviation"; "applicantId"; "applicantName"; "dateObligated";
   "federalShareObligated"; "projectTitle"; "pwNumber"; "versionNumber";
   "disasterNumber"; "county"; "damageCategoryCode"; "incidentType"].

Definition award_row (st : string) (id : text_cell) (name : string) (amount : num_cell)
  : AwardRecord :=
  mk_award (TStr st) id (TStr name) (TStr "Pipeline repair") TNone amount.

Definition group_row (st : string) (id : label) (name : string) (n : Z) (total : Q)
  : UtilitySummary :=
  mk_summary (Some st) id (Some name) n total "NaT" "NaT".

(** Two rows of one applicant whose identifier is missing. *)
Definition frame_without_id : DataFrame :=
  mk_frame select_fields
    [award_row "CA" TNone "Paradise Water District" (NNum 100);
     award_row "CA" TNone "Paradise Water District" (NStr "not-a-number")].

(** The same two rows with the identifier present. *)
Definition frame_with_id : DataFrame :=
  mk_frame select_fields
    [award_row "CA" (TStr "007-U1") "Paradise Water District" (NNum 100);
     award_row "CA" (TStr "007-U1") "Paradise Water District" (NStr "not-a-number")].

(** Two groups of one state with equal totals; the group met first has the
    greater identifier. *)
Definition frame_with_tie : DataFrame :=
  mk_frame select_fields
    [award_row "CA" (TStr "2") "Butte Water Works" (NNum 100);
     award_row "CA" (TStr "1") "Alpine Water Company" (NNum 100)].

Definition frame_with_three_groups : DataFrame :=
  mk_frame select_fields
    [award_row "CA" (TStr "2") "Butte Water Works" (NNum 500);
     award_row "AZ" (TStr "9") "Yuma Irrigation District" (NNum 20);
     award_row "CA" (TStr "1") "Alpine Water Company" (NNum 1500)].

(** The frame built from no record at all: no columns, no rows. *)
Definition frame_of_no_records : DataFrame := mk_frame [] [].

(** A keyword as the classifier expects it: not empty, with no blank at
    either end and no upper-case letter. *)
Definition normal_keyword (k : string) : Prop :=
  k <> "" /\ Py.strip k = k /\ Py.lower k = k.

(** [x] has no upper-case letter. *)
Definition is_lower_case (x : string) : bool := String.eqb (Py.lower x) x.

(** A character a quoted text can hold: one that is kept as it is, the
    [+] that stands for a space, or the [%] of an escape. *)
Definition url_char (safe : string) (c : ascii) : bool :=
  is_alnum c || mem_char c "_.-~" || mem_char c safe
  || Ascii.eqb c "+" || Ascii.eqb c "%".

(** One parameter as it stands in the query. *)
Definition query_piece (safe : string) (kv : string * string) : string :=
  quote_plus safe (fst kv) ++ "=" ++ quote_plus safe (snd kv).

(** The message of the error raised for a response that is not a success. *)
Definition http_error (status_code : Z) (text : string) : exn :=
  RuntimeError ("HTTP " ++ Py.str_int status_code ++ ": " ++ Py.take 500 text).

(** A payload that cannot be read: it is not an object, or its [metadata]
    is not one. *)
Definition unreadable (payload : json) : Prop :=
  match payload with
  | JObj members =>
      match get "metadata" members with
      | Some (JObj _) | None => False
      | Some _ => True
      end
  | _ => True
  end.

(** The sum of a list of rationals, from the right. *)
Definition qsum (l : list Q) : Q := fold_right Qplus 0%Q l.

(** A frame in which one row matches the keyword [water] and one does not. *)
Definition frame_with_other_rows : DataFrame :=
  mk_frame select_fields
    [award_row "CA" (TStr "1") "Alpine Water Company" (NNum 100);
     award_row "CA" (TStr "3") "City Police Department" (NNum 50)].

(** The sum of a list of counts. *)
Definition zsum (l : list Z) : Z := fold_right Z.add 0 l.

(** A date given to [build_filter] that is neither [None] nor empty. *)
Definition usable (d : option string) : bool :=
  match d with
  | Some (String _ _) => true
  | _ => false
  end.

(** * Properties *)

(** ** Text *)

Lemma startswith_iff (x s : string) :
  Py.startswith x s = true <-> exists post, s = x ++ post.
Proof.
  revert s; induction x as [|a x IH]; intros s; simpl.
  - split; [intros _; now exists s | reflexivity].
  - destruct s as [|b s].
    + split; [discriminate | intros [post H]; discriminate].
    + rewrite andb_true_iff, Ascii.eqb_eq, IH. split.
      * intros [-> [post ->]]. now exists post.
      * intros [post H]. injection H as -> ->. split; [reflexivity | now exists post].
Qed.

Lemma contains_iff (x s : string) :
  Py.contains x s = true <-> occurs_in x s.
Proof.
  induction s as [|c s IH]; simpl.
  - rewrite orb_false_r, startswith_iff. split.
    + intros [post H]. now exists "", post.
    + intros [pre [post H]]. destruct pre; [now exists post | discriminate].
  - rewrite orb_true_iff, startswith_iff, IH. split.
    + intros [[post H] | [pre [post H]]].
      * now exists "", post.
      * exists (String c pre), post. simpl. now rewrite H.
    + intros [[|c' pre] [post H]].
      * left. now exists post.
      * right. simpl in H. injection H as _ H. now exists pre, post.
Qed.

Lemma any_iff {A} (f : A -> bool) (l : list A) :
  Py.any f l = true <-> exists x, In x l /\ f x = true.
Proof. apply existsb_exists. Qed.

(** ** is_water_utility *)

Lemma is_water_utility_true_iff (row : Series) (include exclude : list string) :
  is_water_utility row include exclude = true <->
  (forall x, In x exclude -> ~ occurs_in x (name_of row)) /\
  (exists x, In x include /\ occurs_in x (name_of row ++ " " ++ title_of row)).
Proof.
  unfold is_water_utility. fold (name_of row) (title_of row).
  destruct (Py.any (fun x => Py.contains x (name_of row)) exclude) eqn:E.
  - apply any_iff in E. destruct E as [x [Hx Hc]]. apply contains_iff in Hc.
    split; [discriminate | intros [H _]; exfalso; exact (H x Hx Hc)].
  - rewrite any_iff. split.
    + intros [x [Hx Hc]]. split.
      * intros y Hy Hocc. apply contains_iff in Hocc.
        assert (Py.any (fun x => Py.contains x (name_of row)) exclude = true)
          by (apply any_iff; now exists y).
        congruence.
      * exists x. split; [assumption | now apply contains_iff].
    + intros [_ [x [Hx Hc]]]. exists x. split; [assumption | now apply contains_iff].
Qed.

(** C3: the classifier rejects a row as soon as an exclude keyword occurs in
    the lower-cased applicant name, whatever the include keywords; when no
    exclude keyword occurs there, it accepts the row exactly when an include
    keyword occurs in the lower-cased name and title joined by a space; with
    no include keyword no row is accepted. *)
Theorem is_water_utility_policy (row : Series) (include exclude : list string) :
  ((exists x, In x exclude /\ occurs_in x (name_of row)) ->
   is_water_utility row include exclude = false) /\
  ((forall x, In x exclude -> ~ occurs_in x (name_of row)) ->
   (is_water_utility row include exclude = true <->
    exists x, In x include /\ occurs_in x (name_of row ++ " " ++ title_of row))) /\
  is_water_utility row [] exclude = false.
Proof.
  split; [|split].
  - intros [x [Hx Hocc]].
    destruct (is_water_utility row include exclude) eqn:E; [|reflexivity].
    apply is_water_utility_true_iff in E. destruct E as [H _].
    exfalso. exact (H x Hx Hocc).
  - intros Hex. rewrite is_water_utility_true_iff. tauto.
  - destruct (is_water_utility row [] exclude) eqn:E; [|reflexivity].
    apply is_water_utility_true_iff in E. destruct E as [_ [x [[] _]]].
Qed.

Lemma is_water_utility_policy_witness :
  is_water_utility city_water_department ["water"] [] = true /\
  is_water_utility city_water_department ["water"] ["city"] = false.
Proof.
  split.
  - apply (proj1 (proj2 (is_water_utility_policy city_water_department ["water"] []))).
    + intros x [].
    + exists "water". split; [now left |].
      exists "city ", " department pump repair". reflexivity.
  - apply (proj1 (is_water_utility_policy city_water_department ["water"] ["city"])).
    exists "city". split; [now left |].
    exists "", " water department". reflexivity.
Defined.

(** ** Trimming and case *)

Lemma lstrip_idem (s : string) : Py.lstrip (Py.lstrip s) = Py.lstrip s.
Proof.
  induction s as [|c s IH]; simpl; [reflexivity|].
  destruct (Py.is_space c) eqn:E; [exact IH | simpl; now rewrite E].
Qed.

Lemma rstrip_idem (s : string) : Py.rstrip (Py.rstrip s) = Py.rstrip s.
Proof.
  induction s as [|c s IH]; simpl; [reflexivity|].
  destruct (Py.rstrip s) as [|d r] eqn:E.
  - destruct (Py.is_space c) eqn:Ec; simpl; [reflexivity | now rewrite Ec].
  - change (Py.rstrip (String c (String d r))) with
      (match Py.rstrip (String d r) with
       | EmptyString => if Py.is_space c then EmptyString else String c EmptyString
       | r' => String c r'
       end).
    now rewrite IH.
Qed.

Lemma lstrip_rstrip (s : string) : Py.lstrip (Py.rstrip s) = Py.rstrip (Py.lstrip s).
Proof.
  induction s as [|c s IH]; simpl; [reflexivity|].
  destruct (Py.is_space c) eqn:Ec.
  - rewrite <- IH. destruct (Py.rstrip s) as [|d r]; simpl; [reflexivity | now rewrite Ec].
  - simpl. destruct (Py.rstrip s) as [|d r]; simpl; now rewrite Ec.
Qed.

Lemma strip_idem (s : string) : Py.strip (Py.strip s) = Py.strip s.
Proof.
  unfold Py.strip.
  rewrite <- (lstrip_rstrip (Py.rstrip s)).
  now rewrite lstrip_idem, rstrip_idem.
Qed.

Section CaseMapping.

(** A mapping of characters that leaves blanks blank and the others not. *)
Variable f : ascii -> ascii.
Hypothesis f_space : forall c, Py.is_space (f c) = Py.is_space c.

Lemma lstrip_smap (s : string) : Py.lstrip (Py.smap f s) = Py.smap f (Py.lstrip s).
Proof.
  induction s as [|c s IH]; simpl; [reflexivity|].
  rewrite f_space. now destruct (Py.is_space c).
Qed.

Lemma rstrip_smap (s : string) : Py.rstrip (Py.smap f s) = Py.smap f (Py.rstrip s).
Proof.
  induction s as [|c s IH]; simpl; [reflexivity|].
  rewrite IH, f_space.
  destruct (Py.rstrip s); simpl; [now destruct (Py.is_space c) | reflexivity].
Qed.

Lemma strip_smap (s : string) : Py.strip (Py.smap f s) = Py.smap f (Py.strip s).
Proof. unfold Py.strip. now rewrite rstrip_smap, lstrip_smap. Qed.

End CaseMapping.

Lemma is_empty_smap (f : ascii -> ascii) (s : string) :
  Py.is_empty (Py.smap f s) = Py.is_empty s.
Proof. now destruct s. Qed.

Lemma upper_char_space (c : ascii) : Py.is_space (Py.upper_char c) = Py.is_space c.
Proof. destruct c as [[] [] [] [] [] [] [] []]; reflexivity. Qed.

Lemma upper_char_idem (c : ascii) : Py.upper_char (Py.upper_char c) = Py.upper_char c.
Proof. destruct c as [[] [] [] [] [] [] [] []]; reflexivity. Qed.

Lemma upper_idem (s : string) : Py.upper (Py.upper s) = Py.upper s.
Proof.
  unfold Py.upper. induction s as [|c s IH]; simpl; [reflexivity|].
  now rewrite upper_char_idem, IH.
Qed.

Lemma strip_upper (s : string) : Py.strip (Py.upper s) = Py.upper (Py.strip s).
Proof. apply strip_smap, upper_char_space. Qed.

Lemma code_of_idem (c : string) : code_of (code_of c) = code_of c.
Proof. unfold code_of. now rewrite strip_upper, strip_idem, upper_idem. Qed.

Lemma nonblank_code_of (c : string) : nonblank (code_of c) = nonblank c.
Proof.
  unfold nonblank, code_of. rewrite strip_upper, strip_idem.
  unfold Py.upper. now rewrite is_empty_smap.
Qed.

Lemma nonblank_false_iff (c : string) : nonblank c = false <-> Py.strip c = "".
Proof.
  unfold nonblank. destruct (Py.strip c); simpl; split; congruence.
Qed.

Lemma code_of_normal (c : string) : nonblank c = true -> normal_code (code_of c).
Proof.
  intros H. repeat split.
  - intros E. rewrite <- nonblank_code_of in H. unfold nonblank in H.
    rewrite E in H. discriminate.
  - unfold code_of. now rewrite strip_upper, strip_idem.
  - unfold code_of. apply upper_idem.
Qed.

Lemma emitted_codes_normal (entries : list string) :
  Forall normal_code (emitted_codes entries).
Proof.
  unfold emitted_codes. apply Forall_forall. intros k Hk.
  apply in_map_iff in Hk. destruct Hk as [c [<- Hc]].
  apply filter_In in Hc. now apply code_of_normal.
Qed.

Lemma emitted_codes_all_blank (entries : list string) :
  (forall c, In c entries -> Py.strip c = "") -> emitted_codes entries = [].
Proof.
  intros H. unfold emitted_codes.
  induction entries as [|c l IH]; simpl; [reflexivity|].
  assert (E : nonblank c = false) by (apply nonblank_false_iff, H; now left).
  rewrite E. apply IH. intros d Hd. apply H. now right.
Qed.

Lemma emitted_codes_filter (entries : list string) :
  emitted_codes (filter nonblank entries) = emitted_codes entries.
Proof.
  unfold emitted_codes. f_equal.
  induction entries as [|c l IH]; simpl; [reflexivity|].
  destruct (nonblank c) eqn:E; simpl; [now rewrite E, IH | exact IH].
Qed.

Lemma emitted_codes_idem (entries : list string) :
  emitted_codes (emitted_codes entries) = emitted_codes entries.
Proof.
  unfold emitted_codes.
  induction entries as [|c l IH]; simpl; [reflexivity|].
  destruct (nonblank c) eqn:E; simpl; [|exact IH].
  rewrite nonblank_code_of, E. simpl. now rewrite code_of_idem, IH.
Qed.

(** ** build_filter *)

Lemma in_emitted_codes (entries : list string) (k : string) :
  In k (emitted_codes entries) <->
  exists c, In c entries /\ Py.strip c <> "" /\ k = Py.upper (Py.strip c).
Proof.
  unfold emitted_codes. rewrite in_map_iff. split.
  - intros [c [<- Hc]]. apply filter_In in Hc. destruct Hc as [Hin Hnb].
    exists c. split; [assumption | split; [|reflexivity]].
    intros E. apply nonblank_false_iff in E. congruence.
  - intros [c [Hin [Hne ->]]]. exists c. split; [reflexivity|].
    apply filter_In. split; [assumption|].
    destruct (nonblank c) eqn:E; [reflexivity|].
    apply nonblank_false_iff in E. contradiction.
Qed.

Lemma join_is_empty (sep x : string) (l : list string) :
  Py.is_empty x = false -> Py.is_empty (Py.join sep (x :: l)) = false.
Proof. destruct x; [discriminate|]. intros _. now destruct l. Qed.

Lemma category_clause_group (categories : list string) :
  category_clause categories = group "damageCategoryCode" (emitted_codes categories).
Proof.
  unfold category_clause, emitted_codes.
  replace (map category_term (filter nonblank categories))
    with (map (fun k => "damageCategoryCode" ++ " eq '" ++ k ++ "'")
              (map code_of (filter nonblank categories)))
    by (rewrite map_map; reflexivity).
  destruct categories as [|c l]; [reflexivity|].
  destruct (map code_of (filter nonblank (c :: l))) as [|k ks]; [reflexivity|].
  cbv zeta. cbn [map]. rewrite join_is_empty by reflexivity. reflexivity.
Qed.

Lemma state_clause_group (states : option (list string)) :
  state_clause states = group "stateAbbreviation" (emitted_codes (entries_of states)).
Proof.
  unfold state_clause, emitted_codes.
  destruct states as [[|c l]|]; [reflexivity| |reflexivity].
  cbn [entries_of].
  replace (map state_term (filter nonblank (c :: l)))
    with (map (fun k => "stateAbbreviation" ++ " eq '" ++ k ++ "'")
              (map code_of (filter nonblank (c :: l))))
    by (rewrite map_map; reflexivity).
  destruct (map code_of (filter nonblank (c :: l))) as [|k ks]; reflexivity.
Qed.

Lemma filter_parts_groups states start end_ categories incident_contains :
  filter_parts states start end_ categories incident_contains
  = ([incident_clause incident_contains]
       ++ group "damageCategoryCode" (emitted_codes categories)
       ++ group "stateAbbreviation" (emitted_codes (entries_of states))
       ++ date_clause "ge" start ++ date_clause "le" end_)%list.
Proof.
  unfold filter_parts. now rewrite category_clause_group, state_clause_group.
Qed.

Lemma parens_empty_inv (body : string) : "(" ++ body ++ ")" = "()" -> body = "".
Proof.
  simpl. intros H. injection H as H.
  destruct body as [|c [|d b]]; [reflexivity | discriminate | discriminate].
Qed.

Lemma group_not_empty_parens (field : string) (codes : list string) :
  ~ In "()" (group field codes).
Proof.
  destruct codes as [|k l]; [simpl; tauto|].
  unfold group. intros [H | []]. apply parens_empty_inv in H.
  cbn [map] in H.
  assert (E : Py.is_empty (Py.join " or "
                (((field ++ " eq '" ++ k ++ "'")
                  :: map (fun k0 => field ++ " eq '" ++ k0 ++ "'") l))) = false)
    by (apply join_is_empty; now destruct field).
  rewrite H in E. discriminate.
Qed.

Lemma date_clause_not_empty_parens (op : string) (d : option string) :
  ~ In "()" (date_clause op d).
Proof.
  destruct d as [[|c v]|]; simpl; [tauto | | tauto].
  intros [H | []]. discriminate.
Qed.

Lemma filter_parts_no_empty_parens states start end_ categories incident_contains :
  ~ In "()" (filter_parts states start end_ categories incident_contains).
Proof.
  rewrite filter_parts_groups. intros H.
  repeat (apply in_app_or in H; destruct H as [H | H]).
  - destruct incident_contains; simpl in H; destruct H as [H | []]; discriminate.
  - exact (group_not_empty_parens _ _ H).
  - exact (group_not_empty_parens _ _ H).
  - exact (date_clause_not_empty_parens _ _ H).
  - exact (date_clause_not_empty_parens _ _ H).
Qed.

Lemma build_filter_codes states start end_ categories incident_contains states' categories' :
  emitted_codes categories = emitted_codes categories' ->
  emitted_codes (entries_of states) = emitted_codes (entries_of states') ->
  build_filter states start end_ categories incident_contains
  = build_filter states' start end_ categories' incident_contains.
Proof.
  intros Hc Hs. unfold build_filter. now rewrite !filter_parts_groups, Hc, Hs.
Qed.

(** C8: in the category clause and in the state clause only the codes of the
    non-blank entries appear, each trimmed and upper-cased; blank entries can
    be removed, and the others replaced by their codes, without changing the
    expression; when every entry is blank the clause is left out; and no
    clause is ever the empty parenthesis group. *)
Theorem build_filter_drops_blank_entries
    (states : option (list string)) (start end_ : option string)
    (categories : list string) (incident_contains : bool) :
  filter_parts states start end_ categories incident_contains
  = ([incident_clause incident_contains]
       ++ group "damageCategoryCode" (emitted_codes categories)
       ++ group "stateAbbreviation" (emitted_codes (entries_of states))
       ++ date_clause "ge" start ++ date_clause "le" end_)%list
  /\ (forall entries k,
        In k (emitted_codes entries) <->
        exists c, In c entries /\ Py.strip c <> "" /\ k = Py.upper (Py.strip c))
  /\ (forall entries, Forall normal_code (emitted_codes entries))
  /\ build_filter states start end_ categories incident_contains
     = build_filter (option_map (filter nonblank) states) start end_
         (filter nonblank categories) incident_contains
  /\ build_filter states start end_ categories incident_contains
     = build_filter (option_map emitted_codes states) start end_
         (emitted_codes categories) incident_contains
  /\ ((forall c, In c categories -> Py.strip c = "") ->
      category_clause categories = [] /\
      build_filter states start end_ categories incident_contains
      = build_filter states start end_ [] incident_contains)
  /\ ((forall s, In s (entries_of states) -> Py.strip s = "") ->
      state_clause states = [] /\
      build_filter states start end_ categories incident_contains
      = build_filter None start end_ categories incident_contains)
  /\ ~ In "()" (filter_parts states start end_ categories incident_contains).
Proof.
  split; [apply filter_parts_groups|].
  split; [apply in_emitted_codes|].
  split; [apply emitted_codes_normal|].
  split; [|split; [|split; [|split]]].
  - apply build_filter_codes; [now rewrite emitted_codes_filter|].
    destruct states; simpl; [now rewrite emitted_codes_filter | reflexivity].
  - apply build_filter_codes; [now rewrite emitted_codes_idem|].
    destruct states; simpl; [now rewrite emitted_codes_idem | reflexivity].
  - intros H. split.
    + now rewrite category_clause_group, emitted_codes_all_blank.
    + apply build_filter_codes; [now rewrite emitted_codes_all_blank | reflexivity].
  - intros H. split.
    + now rewrite state_clause_group, emitted_codes_all_blank.
    + apply build_filter_codes; [reflexivity | now rewrite emitted_codes_all_blank].
  - apply filter_parts_no_empty_parens.
Qed.

Lemma build_filter_drops_blank_entries_witness :
  build_filter (Some ["  "]) None None [""; "   "] false = "incidentType eq 'Fire'".
Proof.
  destruct (build_filter_drops_blank_entries (Some ["  "]) None None [""; "   "] false)
    as (_ & _ & _ & _ & _ & Hc & _).
  destruct Hc as [_ Hc].
  - intros c [<- | [<- | []]]; reflexivity.
  - rewrite Hc.
    destruct (build_filter_drops_blank_entries (Some ["  "]) None None [] false)
      as (_ & _ & _ & _ & _ & _ & Hs & _).
    destruct Hs as [_ Hs].
    + intros s [<- | []]; reflexivity.
    + rewrite Hs. reflexivity.
Defined.

Lemma length_append (a b : string) :
  String.length (a ++ b) = (String.length a + String.length b)%nat.
Proof. induction a as [|c a IH]; simpl; [reflexivity | now rewrite IH]. Qed.

Lemma join_extra_item_longer (sep x y : string) (l : list string) :
  sep <> "" ->
  (String.length (Py.join sep (x :: l)) < String.length (Py.join sep (x :: y :: l)))%nat.
Proof.
  intros Hsep.
  assert (0 < String.length sep)%nat by (destruct sep; [contradiction | simpl; lia]).
  change (Py.join sep (x :: y :: l)) with (x ++ sep ++ Py.join sep (y :: l)).
  destruct l as [|z l].
  - simpl Py.join. rewrite !length_append. lia.
  - change (Py.join sep (x :: z :: l)) with (x ++ sep ++ Py.join sep (z :: l)).
    change (Py.join sep (y :: z :: l)) with (y ++ sep ++ Py.join sep (z :: l)).
    rewrite !length_append. lia.
Qed.

(** C2, counterexample: selecting category [A] changes the expression;
    the selection is not a no-op. *)
Lemma category_selection_not_a_noop :
  build_filter None None None ["A"] false
    = "incidentType eq 'Fire' and (damageCategoryCode eq 'A')"
  /\ ~ (forall states start end_ categories incident_contains,
          build_filter states start end_ categories incident_contains
          = build_filter states start end_ [] incident_contains).
Proof.
  split; [reflexivity|].
  intros H. specialize (H None None None ["A"] false). discriminate H.
Qed.

(** C2, amended: the category selection is threaded into the expression.
    It gives the expression of the empty selection exactly when every
    selected entry is blank; a selection with a non-blank entry puts a group
    of [damageCategoryCode] alternatives right after the incident clause. *)
Theorem category_selection_reaches_filter
    (states : option (list string)) (start end_ : option string)
    (categories : list string) (incident_contains : bool) :
  (build_filter states start end_ categories incident_contains
   = build_filter states start end_ [] incident_contains
   <-> forall c, In c categories -> Py.strip c = "")
  /\ filter_parts states start end_ categories incident_contains
     = (incident_clause incident_contains
        :: group "damageCategoryCode" (emitted_codes categories)
        ++ tl (filter_parts states start end_ [] incident_contains))%list.
Proof.
  split; [|now rewrite !filter_parts_groups].
  split.
  - intros Heq c Hc.
    destruct (Py.strip c) as [|a s] eqn:E; [reflexivity | exfalso].
    assert (Hk : In (Py.upper (Py.strip c)) (emitted_codes categories)).
    { apply in_emitted_codes. exists c. repeat split; [assumption | congruence]. }
    unfold build_filter in Heq. rewrite !filter_parts_groups in Heq.
    destruct (emitted_codes categories) as [|k ks]; [destruct Hk|].
    remember (group "stateAbbreviation" (emitted_codes (entries_of states))
                ++ date_clause "ge" start ++ date_clause "le" end_)%list as rest.
    remember (hd "" (group "damageCategoryCode" (k :: ks))) as y.
    assert (Heq' : Py.join " and " (incident_clause incident_contains :: y :: rest)
                   = Py.join " and " (incident_clause incident_contains :: rest))
      by (subst y; exact Heq).
    apply (f_equal String.length) in Heq'.
    pose proof (join_extra_item_longer " and " (incident_clause incident_contains) y rest
                  ltac:(discriminate)).
    lia.
  - intros H. apply build_filter_codes; [now rewrite emitted_codes_all_blank | reflexivity].
Qed.

Lemma category_selection_reaches_filter_witness :
  build_filter (Some ["ca"]) None None ["  "] true
  = build_filter (Some ["ca"]) None None [] true.
Proof.
  apply (proj1 (category_selection_reaches_filter (Some ["ca"]) None None ["  "] true)).
  intros c [<- | []]. reflexivity.
Defined.

(** ** fetch_all: one iteration *)

Lemma requests_of_app (t t' : list event) :
  requests_of (t ++ t') = (requests_of t ++ requests_of t')%list.
Proof. apply flat_map_app. Qed.

Lemma reports_of_app (t t' : list event) :
  reports_of (t ++ t') = (reports_of t ++ reports_of t')%list.
Proof. apply flat_map_app. Qed.

Section Iteration.

Variable filters : string.
Variable select_fields : option (list string).
Variable progress : bool.

Let url_at (st : loop_state) : string := request_url filters select_fields (skip st).

Lemma iteration_connection_failure (st : loop_state) :
  iteration filters select_fields progress ConnectionFailure st
  = ([Requested (url_at st)], Raise RequestException).
Proof. reflexivity. Qed.

Lemma iteration_bad_status (st : loop_state) (status_code : Z) (text : string)
    (body : option json) :
  status_code <> 200 ->
  iteration filters select_fields progress (Response status_code text body) st
  = ([Requested (url_at st)],
     Raise (RuntimeError ("HTTP " ++ Py.str_int status_code ++ ": " ++ Py.take 500 text))).
Proof.
  intros H. unfold iteration, receive.
  apply Z.eqb_neq in H. rewrite H. reflexivity.
Qed.

Lemma current_total_ok (known : json) (members : list (string * json)) (total : json) :
  next_total known members = Some total ->
  current_total known members = ([], Ok total).
Proof.
  unfold next_total, current_total, read_count, items, bind, ret.
  destruct known; try (intros H; injection H as <-; reflexivity).
  destruct (get "metadata" members) as [[]|]; try discriminate;
    intros H; injection H as <-; reflexivity.
Qed.

Lemma current_total_raises (known : json) (members : list (string * json)) :
  next_total known members = None ->
  current_total known members = ([], Raise AttributeError).
Proof.
  unfold next_total, current_total, read_count, items, bind, throw.
  destruct known; try discriminate.
  destruct (get "metadata" members) as [[]|]; try discriminate; reflexivity.
Qed.

Ltac run_iteration :=
  unfold iteration;
  cbv beta iota zeta delta [receive items bind emit ret negb Z.eqb Pos.eqb].

Lemma iteration_bad_total (st : loop_state) (text : string)
    (members : list (string * json)) :
  next_total (total_count st) members = None ->
  iteration filters select_fields progress (Response 200 text (Some (JObj members))) st
  = ([Requested (url_at st)], Raise AttributeError).
Proof.
  intros Htotal. run_iteration. rewrite (current_total_raises _ _ Htotal). reflexivity.
Qed.

Lemma iteration_no_rows (st : loop_state) (text : string)
    (members : list (string * json)) (total : json) :
  page_rows members = [] ->
  next_total (total_count st) members = Some total ->
  iteration filters select_fields progress (Response 200 text (Some (JObj members))) st
  = ([Requested (url_at st)],
     Ok (Break, mk_state (records st) (skip st) total (url_at st))).
Proof.
  intros Hrows Htotal. run_iteration.
  rewrite (current_total_ok _ _ _ Htotal), Hrows. reflexivity.
Qed.

Lemma iteration_rows_quiet (st : loop_state) (text : string)
    (members : list (string * json)) (total : json) :
  page_rows members <> [] ->
  next_total (total_count st) members = Some total ->
  progress && truthy total = false ->
  iteration filters select_fields progress (Response 200 text (Some (JObj members))) st
  = ([Requested (url_at st)],
     Ok (after_page (page_rows members),
         advance st (page_rows members) total (url_at st))).
Proof.
  intros Hrows Htotal Hq. run_iteration.
  rewrite (current_total_ok _ _ _ Htotal). unfold notify. rewrite Hq.
  destruct (page_rows members); [contradiction | reflexivity].
Qed.

Lemma iteration_rows_reported (st : loop_state) (text : string)
    (members : list (string * json)) (total : json) (d : Q) :
  page_rows members <> [] ->
  next_total (total_count st) members = Some total ->
  progress && truthy total = true ->
  max_one total = ([], Ok d) ->
  iteration filters select_fields progress (Response 200 text (Some (JObj members))) st
  = ([Requested (url_at st);
      Reported (fraction (List.length (records st ++ page_rows members)) d)],
     Ok (after_page (page_rows members),
         advance st (page_rows members) total (url_at st))).
Proof.
  intros Hrows Htotal Hq Hd. run_iteration.
  rewrite (current_total_ok _ _ _ Htotal). unfold notify. rewrite Hq.
  cbv beta iota zeta delta [bind emit]. rewrite Hd.
  destruct (page_rows members); [contradiction | reflexivity].
Qed.

Lemma iteration_rows_type_error (st : loop_state) (text : string)
    (members : list (string * json)) (total : json) :
  page_rows members <> [] ->
  next_total (total_count st) members = Some total ->
  progress && truthy total = true ->
  max_one total = ([], Raise TypeError) ->
  iteration filters select_fields progress (Response 200 text (Some (JObj members))) st
  = ([Requested (url_at st)], Raise TypeError).
Proof.
  intros Hrows Htotal Hq Hd. run_iteration.
  rewrite (current_total_ok _ _ _ Htotal). unfold notify. rewrite Hq.
  cbv beta iota zeta delta [bind emit]. rewrite Hd.
  destruct (page_rows members); [contradiction | reflexivity].
Qed.

Lemma max_one_cases (total : json) :
  max_one total = ([], Ok (max_one_value total))
  \/ max_one total = ([], Raise TypeError).
Proof. destruct total; simpl; auto. Qed.

Lemma max_one_ok (total : json) (d : Q) :
  max_one total = ([], Ok d) -> d = max_one_value total.
Proof.
  destruct total; simpl; unfold ret, throw; intros H;
    try discriminate; injection H as <-; reflexivity.
Qed.

(** Every way an iteration can go. *)
Lemma iteration_inv (r : reply) (st : loop_state) (t : list event)
    (res : py_result (control * loop_state)) :
  iteration filters select_fields progress r st = (t, res) ->
  (t = [Requested (url_at st)] /\ exists e, res = Raise e)
  \/ (exists text members total,
        r = Response 200 text (Some (JObj members)) /\
        next_total (total_count st) members = Some total /\
        ((page_rows members = [] /\
          t = [Requested (url_at st)] /\
          res = Ok (Break, mk_state (records st) (skip st) total (url_at st)))
         \/ (page_rows members <> [] /\
             res = Ok (after_page (page_rows members),
                       advance st (page_rows members) total (url_at st)) /\
             ((progress && truthy total = false /\ t = [Requested (url_at st)])
              \/ (progress && truthy total = true /\
                  t = [Requested (url_at st);
                       Reported (fraction (List.length (records st ++ page_rows members))
                                          (max_one_value total))]))))).
Proof.
  intros H. destruct r as [|code text body].
  { rewrite iteration_connection_failure in H. injection H as <- <-. left. eauto. }
  destruct (Z.eq_dec code 200) as [->|Hne].
  2:{ rewrite iteration_bad_status in H by assumption. injection H as <- <-. left. eauto. }
  destruct body as [payload|].
  2:{ injection H as <- <-. left. eauto. }
  destruct payload as [| | | | |members];
    try (injection H as <- <-; left; eauto; fail).
  destruct (next_total (total_count st) members) as [total|] eqn:Htotal.
  2:{ rewrite (iteration_bad_total _ _ _ Htotal) in H. injection H as <- <-.
      left. eauto. }
  destruct (page_rows members) as [|row rows] eqn:Hrows.
  - right. exists text, members, total. split; [reflexivity|]. split; [assumption|].
    left. rewrite (iteration_no_rows _ _ _ _ Hrows Htotal) in H.
    injection H as <- <-. rewrite Hrows. auto.
  - assert (Hne : page_rows members <> []) by (rewrite Hrows; discriminate).
    destruct (progress && truthy total) eqn:Hq.
    + destruct (max_one_cases total) as [Hd | Hd].
      * right. exists text, members, total.
        split; [reflexivity|]. split; [assumption|]. right.
        rewrite (iteration_rows_reported _ _ _ _ _ Hne Htotal Hq Hd) in H.
        injection H as <- <-. auto.
      * left. rewrite (iteration_rows_type_error _ _ _ _ Hne Htotal Hq Hd) in H.
        injection H as <- <-. eauto.
    + right. exists text, members, total.
      split; [reflexivity|]. split; [assumption|]. right.
      rewrite (iteration_rows_quiet _ _ _ _ Hne Htotal Hq) in H.
      injection H as <- <-. auto.
Qed.

End Iteration.

(** ** fetch_all: whole runs *)

Lemma take_length (n : nat) (s : string) : (String.length (Py.take n s) <= n)%nat.
Proof.
  revert s; induction n as [|n IH]; intros [|c s]; simpl; try lia.
  specialize (IH s). lia.
Qed.

Lemma take_prefix (n : nat) (s : string) : exists rest, s = Py.take n s ++ rest.
Proof.
  revert s; induction n as [|n IH]; intros s.
  - exists s. now destruct s.
  - destruct s as [|c s]; [now exists ""|].
    destruct (IH s) as [rest H]. exists rest. simpl. now rewrite <- H.
Qed.

Lemma no_list_member_rows (members : list (string * json)) :
  no_list_member members = true -> page_rows members = [].
Proof.
  intros H. unfold page_rows.
  replace (find_data_key members) with (@None string); [reflexivity|].
  induction members as [|[k v] l IH]; [reflexivity|].
  simpl in H. apply andb_true_iff in H. destruct H as [Hv Hl].
  destruct v; simpl; try (now apply IH). discriminate.
Qed.

Section Run.

Variable filters : string.
Variable select_fields : option (list string).
Variable progress : bool.

Let url_at (st : loop_state) : string := request_url filters select_fields (skip st).
Let loop := fetch_loop filters select_fields progress.

(** Replies beyond the point where the loop stopped are never asked for,
    and a run that still waits goes on with the replies that follow. *)
Lemma fetch_loop_app (pre rest : list reply) (st st' : loop_state) (t : list event) :
  loop pre st = (t, Awaiting st') ->
  loop (pre ++ rest)%list st = (let (t', o) := loop rest st' in ((t ++ t')%list, o)).
Proof.
  unfold loop. revert st t.
  induction pre as [|r pre IH]; intros st t H; simpl in *.
  - injection H as <- <-. now destruct (fetch_loop _ _ _ rest st).
  - destruct (iteration filters select_fields progress r st) as [t0 [[[] st1]|e]];
      try discriminate.
    destruct (fetch_loop _ _ _ pre st1) as [t1 o1] eqn:E.
    injection H as <- ->. rewrite (IH _ _ E).
    destruct (fetch_loop _ _ _ rest st') as [t2 o2]. now rewrite app_assoc.
Qed.

(** C4: when the loop, still running after the replies [pre], gets a reply
    whose status is not 200, the run ends there by raising an error that
    carries the status code and the first 500 characters of the body; no
    row reaches the caller, and the failed request is sent once. *)
Theorem non_success_status_aborts (pre post : list reply) (status_code : Z)
    (text : string) (body : option json) (t : list event) (st' : loop_state) :
  fetch_all filters select_fields progress pre = (t, Awaiting st') ->
  status_code <> 200 ->
  let run := fetch_all filters select_fields progress
               (pre ++ Response status_code text body :: post)%list in
  snd run = Raised (RuntimeError ("HTTP " ++ Py.str_int status_code ++ ": "
                                  ++ Py.take 500 text))
  /\ surfaced_rows (snd run) = []
  /\ fst run = (t ++ [Requested (url_at st')])%list
  /\ (String.length (Py.take 500 text) <= 500)%nat
  /\ exists rest, text = Py.take 500 text ++ rest.
Proof.
  intros Hpre Hne run. subst run. unfold fetch_all in *.
  rewrite (fetch_loop_app _ _ _ _ _ Hpre). unfold loop. cbn [fetch_loop].
  rewrite iteration_bad_status by assumption. cbn [fst snd surfaced_rows].
  repeat split; [apply take_length | apply take_prefix].
Qed.

(** C1, amended: a 200 payload with no list-valued member raises no
    error.  Provided its [metadata] can be read (it is absent or an
    object, or the total count is already known), the page counts as having
    no rows and ends the loop: the function returns the rows accumulated so
    far, which is the empty result set when this is the first page. *)
Theorem payload_without_list_ends_fetch (pre post : list reply) (text : string)
    (members : list (string * json)) (t : list event) (st' : loop_state)
    (total : json) :
  fetch_all filters select_fields progress pre = (t, Awaiting st') ->
  no_list_member members = true ->
  next_total (total_count st') members = Some total ->
  fetch_all filters select_fields progress
    (pre ++ Response 200 text (Some (JObj members)) :: post)%list
  = ((t ++ [Requested (url_at st')])%list,
     Returned (records st') (url_at st') (or_zero total))
  /\ (pre = [] -> records st' = []).
Proof.
  intros Hpre Hno Htotal. split.
  - unfold fetch_all in *.
    rewrite (fetch_loop_app _ _ _ _ _ Hpre). unfold loop. cbn [fetch_loop].
    rewrite (iteration_no_rows _ _ _ _ _ _ _ (no_list_member_rows _ Hno) Htotal).
    reflexivity.
  - intros ->. unfold fetch_all in Hpre. simpl in Hpre. now injection Hpre as _ <-.
Qed.

End Run.

(** C1, counterexample: on a 200 response whose payload is the empty
    object, which has no list-valued member, [fetch_all] does not raise: it
    returns the empty result set with a total count of 0. *)
Lemma payload_without_list_returns_empty :
  no_list_member [] = true /\
  snd (fetch_all "incidentType eq 'Fire'" None false [Response 200 "{}" (Some (JObj []))])
  = Returned [] (request_url "incidentType eq 'Fire'" None 0) (JNum 0).
Proof. split; reflexivity. Qed.

Lemma payload_without_list_ends_fetch_witness :
  fetch_all "incidentType eq 'Fire'" None true
    [Response 200 "{}" (Some (JObj [("metadata", JObj [("count", JNum 0)])]))]
  = ([Requested (request_url "incidentType eq 'Fire'" None 0)],
     Returned [] (request_url "incidentType eq 'Fire'" None 0) (JNum 0)).
Proof.
  exact (proj1 (payload_without_list_ends_fetch "incidentType eq 'Fire'" None true
                  [] [] "{}" [("metadata", JObj [("count", JNum 0)])] []
                  initial_state (JNum 0) eq_refl eq_refl eq_refl)).
Defined.

Lemma non_success_status_aborts_witness :
  snd (fetch_all "incidentType eq 'Fire'" None true
         [page_reply 2400 (repeat sample_row 1000);
          Response 503 "Service Unavailable" None])
  = Raised (RuntimeError "HTTP 503: Service Unavailable").
Proof.
  destruct (fetch_all "incidentType eq 'Fire'" None true
              [page_reply 2400 (repeat sample_row 1000)]) as [t o] eqn:E.
  assert (Ho : o = Awaiting (mk_state (repeat sample_row 1000) 1000 (JNum (inject_Z 2400))
                               (request_url "incidentType eq 'Fire'" None 0))).
  { apply (f_equal snd) in E. simpl snd in E. rewrite <- E. vm_compute. reflexivity. }
  subst o.
  exact (proj1 (non_success_status_aborts "incidentType eq 'Fire'" None true
                  [page_reply 2400 (repeat sample_row 1000)] [] 503
                  "Service Unavailable" None t _ E ltac:(discriminate))).
Defined.

(** ** fetch_all: pagination *)

Lemma plain_next_total (known : json) (members : list (string * json)) :
  comparable known = true -> plain_metadata members = true ->
  exists total, next_total known members = Some total /\ comparable total = true.
Proof.
  unfold plain_metadata, next_total. intros Hk Hm.
  destruct known; try discriminate; eauto.
  destruct (get "metadata" members) as [[]|]; try discriminate; eauto.
  destruct (get "count" members0); eauto.
Qed.

Lemma comparable_max_one (total : json) :
  comparable total = true -> truthy total = true ->
  max_one total = ([], Ok (max_one_value total)).
Proof. destruct total; try discriminate; reflexivity. Qed.

Section Pagination.

Variable filters : string.
Variable select_fields : option (list string).
Variable progress : bool.

Let url (skip : Z) : string := request_url filters select_fields skip.

Lemma iteration_delivers (r : reply) (page : list json) (st : loop_state) :
  delivers r page -> comparable (total_count st) = true ->
  exists t total,
    comparable total = true
    /\ requests_of t = [url (skip st)]
    /\ iteration filters select_fields progress r st
       = (t, Ok (match page with
                 | [] => (Break, mk_state (records st) (skip st) total (url (skip st)))
                 | _ => (after_page page, advance st page total (url (skip st)))
                 end)).
Proof.
  intros (text & members & -> & <- & Hm) Hk.
  destruct (plain_next_total _ _ Hk Hm) as (total & Htotal & Hc).
  destruct (page_rows members) as [|row rows] eqn:Hrows.
  - exists [Requested (url (skip st))], total. repeat split; try assumption.
    now apply iteration_no_rows.
  - assert (Hne : page_rows members <> []) by (rewrite Hrows; discriminate).
    rewrite <- Hrows.
    destruct (progress && truthy total) eqn:Hq.
    + eexists _, total. split; [assumption|]. split.
      2:{ apply iteration_rows_reported; try eassumption.
          apply comparable_max_one; [assumption|].
          now apply andb_true_iff in Hq. }
      reflexivity.
    + eexists _, total. split; [assumption|]. split.
      2:{ now apply iteration_rows_quiet. }
      reflexivity.
Qed.

Lemma offsets_shift (base : Z) (n : nat) :
  map (fun i => url (base + top * Z.of_nat i)) (seq 1 n)
  = map (fun i => url (base + top + top * Z.of_nat i)) (seq 0 n).
Proof.
  rewrite <- seq_shift, map_map. apply map_ext. intros i. f_equal. lia.
Qed.

Lemma fetch_loop_pages (full : list (list json)) (replies : list reply) :
  Forall2 delivers replies full ->
  Forall (fun page => top <= Z.of_nat (List.length page)) full ->
  forall (st : loop_state) (r : reply) (last : list json) (more : list reply),
    comparable (total_count st) = true ->
    delivers r last ->
    Z.of_nat (List.length last) < top ->
    exists t total,
      fetch_loop filters select_fields progress (replies ++ r :: more)%list st
      = (t, Returned (records st ++ List.concat full ++ last)%list
                     (url (skip st + top * Z.of_nat (List.length full))) total)
      /\ requests_of t
         = map (fun i => url (skip st + top * Z.of_nat i))
               (seq 0 (S (List.length full))).
Proof.
  induction 1 as [|r0 page replies full Hr0 _ IH]; intros Hfull st r last more Hk Hr Hlast.
  - destruct (iteration_delivers r last st Hr Hk) as (t & total & Hc & Hreq & Hit).
    exists t. eexists. cbn [app fetch_loop List.concat List.length seq map].
    rewrite Hit, Z.mul_0_r, Z.add_0_r. split; [|exact Hreq].
    destruct last as [|row rows].
    + cbn [records last_url total_count]. now rewrite app_nil_r.
    + unfold after_page.
      replace (Z.of_nat (List.length (row :: rows)) <? top) with true
        by (symmetry; now apply Z.ltb_lt).
      reflexivity.
  - inversion Hfull as [|? ? Hpage Hfull']; subst.
    destruct (iteration_delivers r0 page st Hr0 Hk) as (t & total & Hc & Hreq & Hit).
    assert (Hcont : match page with
                    | [] => (Break, mk_state (records st) (skip st) total (url (skip st)))
                    | _ => (after_page page, advance st page total (url (skip st)))
                    end = (Continue, advance st page total (url (skip st)))).
    { destruct page as [|row rows]; [unfold top in Hpage; simpl in Hpage; lia|].
      unfold after_page.
      replace (Z.of_nat (List.length (row :: rows)) <? top) with false
        by (symmetry; now apply Z.ltb_ge).
      reflexivity. }
    rewrite Hcont in Hit.
    destruct (IH Hfull' (advance st page total (url (skip st))) r last more Hc Hr Hlast)
      as (t' & total' & Hrun & Hreq').
    exists (t ++ t')%list, total'.
    cbn [app fetch_loop]. rewrite Hit, Hrun. split.
    + cbn [advance records skip List.concat List.length]. f_equal.
      rewrite <- !app_assoc.
      replace (skip st + top * Z.of_nat (S (List.length full)))
        with (skip st + top + top * Z.of_nat (List.length full)) by lia.
      reflexivity.
    + rewrite requests_of_app, Hreq, Hreq'.
      cbn [advance skip List.length].
      change (seq 0 (S (S (List.length full))))
        with (0%nat :: seq 1 (S (List.length full))).
      cbn [map app]. rewrite offsets_shift.
      now rewrite Z.mul_0_r, Z.add_0_r.
Qed.

End Pagination.

Lemma page_reply_delivers (total : Z) (page : list json) :
  delivers (page_reply total page) page.
Proof.
  exists "", [("metadata", JObj [("count", JNum (inject_Z total))]);
              ("PublicAssistanceGrantAwardActivities", JList page)].
  repeat split.
Qed.

(** C5: against a source delivering pages of 1000, 1000 and 400 rows,
    [fetch_all] sends exactly 3 requests and returns 2400 rows.  In general,
    as long as the pages hold at least [top] rows each the loop goes on, the
    request after [i] such pages carrying the offset [top * i]; it stops at
    the first page with fewer rows, whose rows, if there are any, are kept;
    the result is the rows of all those pages in order. *)
Theorem pagination_stops_at_short_page
    (filters : string) (select_fields : option (list string)) (progress : bool) :
  (let run := fetch_all filters select_fields progress
                (map (page_reply 2400)
                     [repeat sample_row 1000; repeat sample_row 1000;
                      repeat sample_row 400]) in
   List.length (requests_of (fst run)) = 3%nat
   /\ exists df url total,
        snd run = Returned df url total /\ List.length df = 2400%nat)
  /\ forall (replies : list reply) (full : list (list json)) (r : reply)
       (last : list json) (more : list reply),
       Forall2 delivers replies full ->
       Forall (fun page => top <= Z.of_nat (List.length page)) full ->
       delivers r last ->
       Z.of_nat (List.length last) < top ->
       exists t total,
         fetch_all filters select_fields progress (replies ++ r :: more)%list
         = (t, Returned (List.concat full ++ last)%list
                 (request_url filters select_fields (top * Z.of_nat (List.length full)))
                 total)
         /\ requests_of t
            = map (fun i => request_url filters select_fields (top * Z.of_nat i))
                  (seq 0 (S (List.length full))).
Proof.
  assert (General :
    forall replies full r last more,
      Forall2 delivers replies full ->
      Forall (fun page => top <= Z.of_nat (List.length page)) full ->
      delivers r last ->
      Z.of_nat (List.length last) < top ->
      exists t total,
        fetch_all filters select_fields progress (replies ++ r :: more)%list
        = (t, Returned (List.concat full ++ last)%list
                (request_url filters select_fields (top * Z.of_nat (List.length full)))
                total)
        /\ requests_of t
           = map (fun i => request_url filters select_fields (top * Z.of_nat i))
                 (seq 0 (S (List.length full)))).
  { intros replies full r last more Hrep Hfull Hr Hlast.
    exact (fetch_loop_pages filters select_fields progress full replies Hrep Hfull
             initial_state r last more eq_refl Hr Hlast). }
  split; [|exact General].
  destruct (General
              [page_reply 2400 (repeat sample_row 1000);
               page_reply 2400 (repeat sample_row 1000)]
              [repeat sample_row 1000; repeat sample_row 1000]
              (page_reply 2400 (repeat sample_row 400))
              (repeat sample_row 400) [])
    as (t & total & Hrun & Hreq).
  - repeat constructor; apply page_reply_delivers.
  - repeat constructor; rewrite repeat_length; unfold top; lia.
  - apply page_reply_delivers.
  - rewrite repeat_length. unfold top. lia.
  - cbv zeta. cbn [map app] in *. rewrite Hrun. cbn [fst snd]. split.
    + rewrite Hreq. now rewrite length_map, length_seq.
    + eexists _, _, _. split; [reflexivity|].
      cbn [List.concat]. now rewrite !length_app, !repeat_length.
Qed.

Lemma pagination_stops_at_short_page_witness :
  exists t total,
    fetch_all "incidentType eq 'Fire'" None false
      [page_reply 2 [sample_row; sample_row]; page_reply 2 []]
    = (t, Returned [sample_row; sample_row]
            (request_url "incidentType eq 'Fire'" None 0) total)
    /\ requests_of t = [request_url "incidentType eq 'Fire'" None 0].
Proof.
  exact (proj2 (pagination_stops_at_short_page "incidentType eq 'Fire'" None false)
           [] [] (page_reply 2 [sample_row; sample_row]) [sample_row; sample_row]
           [page_reply 2 []]
           (Forall2_nil _) (Forall_nil _) (page_reply_delivers _ _) eq_refl).
Defined.

(** ** fetch_all: progress reports *)

Lemma max_one_value_pos (total : json) : (0 < max_one_value total)%Q.
Proof.
  destruct total; simpl; try reflexivity.
  destruct (Qle_bool 1 q) eqn:E; [|reflexivity].
  apply Qle_bool_iff in E. apply Qlt_le_trans with (y := 1%Q); [reflexivity | exact E].
Qed.

(** [max_one_value] is Python's [max(total, 1)] on a number. *)
Lemma max_one_value_is_max (q : Q) : (max_one_value (JNum q) == Qmax q 1)%Q.
Proof.
  simpl. destruct (Qle_bool 1 q) eqn:E.
  - apply Qle_bool_iff in E. symmetry. now apply Q.max_l.
  - symmetry. apply Q.max_r. apply Qlt_le_weak, Qnot_le_lt.
    intros H. apply Qle_bool_iff in H. congruence.
Qed.

(** [fraction] is [min(1, n / d)]. *)
Lemma fraction_is_min (n : nat) (d : Q) :
  (fraction n d == Qmin 1 (inject_Z (Z.of_nat n) / d))%Q.
Proof.
  unfold fraction. destruct (Qle_bool 1 (inject_Z (Z.of_nat n) / d)) eqn:E.
  - apply Qle_bool_iff in E. symmetry. now apply Q.min_l.
  - symmetry. apply Q.min_r. apply Qlt_le_weak, Qnot_le_lt.
    intros H. apply Qle_bool_iff in H. congruence.
Qed.

Lemma fraction_mono (n m : nat) (d : Q) :
  (n <= m)%nat -> (0 < d)%Q -> (fraction n d <= fraction m d)%Q.
Proof.
  intros Hnm Hd.
  assert (Hxy : (inject_Z (Z.of_nat n) / d <= inject_Z (Z.of_nat m) / d)%Q).
  { apply Qmult_le_compat_r.
    - rewrite <- Zle_Qle. lia.
    - apply Qlt_le_weak, Qinv_lt_0_compat, Hd. }
  unfold fraction.
  destruct (Qle_bool 1 (inject_Z (Z.of_nat n) / d)) eqn:En;
    destruct (Qle_bool 1 (inject_Z (Z.of_nat m) / d)) eqn:Em.
  - apply Qle_refl.
  - apply Qle_bool_iff in En. exfalso.
    assert (Qle_bool 1 (inject_Z (Z.of_nat m) / d) = true)
      by (apply Qle_bool_iff; eapply Qle_trans; eassumption).
    congruence.
  - apply Qlt_le_weak, Qnot_le_lt. intros H. apply Qle_bool_iff in H. congruence.
  - exact Hxy.
Qed.

Lemma next_total_known (known : json) (members : list (string * json)) (total : json) :
  next_total known members = Some total -> known <> JNull -> total = known.
Proof. destruct known; simpl; intros H Hn; congruence. Qed.

Lemma truthy_not_null (total : json) : truthy total = true -> total <> JNull.
Proof. intros H ->. discriminate. Qed.

Lemma next_total_source (known : json) (members : list (string * json)) (total : json) :
  next_total known members = Some total -> truthy total = true ->
  (known <> JNull /\ total = known)
  \/ (known = JNull /\ count_member members = Some total).
Proof.
  unfold next_total, count_member. intros H Ht.
  destruct known; try (left; split; congruence).
  right. split; [reflexivity|].
  destruct (get "metadata" members) as [[]|]; try discriminate.
  - destruct (get "count" members0); [congruence|].
    injection H as <-. discriminate.
  - injection H as <-. discriminate.
Qed.

Section Progress.

Variable filters : string.
Variable select_fields : option (list string).
Variable progress : bool.

(** What one iteration reports: nothing, or, after a page with rows, one
    fraction computed from the records accumulated so far and a total
    count that is truthy, known from an earlier page or read from this
    one. *)
Lemma iteration_reports (r : reply) (st : loop_state) (t : list event)
    (res : py_result (control * loop_state)) :
  iteration filters select_fields progress r st = (t, res) ->
  reports_of t = []
  \/ exists text members c st',
       r = Response 200 text (Some (JObj members))
       /\ res = Ok (c, st')
       /\ progress = true
       /\ page_rows members <> []
       /\ records st' = (records st ++ page_rows members)%list
       /\ truthy (total_count st') = true
       /\ ((total_count st <> JNull /\ total_count st' = total_count st)
           \/ (total_count st = JNull
               /\ count_member members = Some (total_count st')))
       /\ reports_of t
          = [fraction (List.length (records st')) (max_one_value (total_count st'))].
Proof.
  intros H. apply iteration_inv in H.
  destruct H as [[-> _] | (text & members & total & -> & Htotal & H)]; [now left|].
  destruct H as [(_ & -> & _) | (Hne & -> & [[_ ->] | [Hq ->]])]; [now left | now left |].
  right. apply andb_true_iff in Hq. destruct Hq as [Hp Ht].
  exists text, members, (after_page (page_rows members)),
    (advance st (page_rows members) total (request_url filters select_fields (skip st))).
  cbn [advance records total_count].
  repeat split; try assumption; try reflexivity.
  now apply next_total_source.
Qed.

Lemma iteration_keeps_total (r : reply) (st st' : loop_state) (t : list event)
    (c : control) :
  iteration filters select_fields progress r st = (t, Ok (c, st')) ->
  (total_count st <> JNull -> total_count st' = total_count st)
  /\ (List.length (records st) <= List.length (records st'))%nat.
Proof.
  intros H. apply iteration_inv in H.
  destruct H as [[_ [e He]] | (text & members & total & -> & Htotal & H)];
    [discriminate|].
  assert (Hk : total_count st <> JNull -> total = total_count st)
    by (intros Hn; eapply next_total_known; eassumption).
  destruct H as [(_ & _ & H) | (_ & H & _)]; injection H as _ ->;
    cbn [advance records total_count]; split; try assumption.
  - lia.
  - rewrite length_app. lia.
Qed.

Lemma fetch_loop_reports_sorted (replies : list reply) (st : loop_state)
    (t : list event) (o : outcome) :
  fetch_loop filters select_fields progress replies st = (t, o) ->
  StronglySorted Qle (reports_of t)
  /\ (total_count st <> JNull ->
      Forall (Qle (fraction (List.length (records st))
                            (max_one_value (total_count st))))
             (reports_of t)).
Proof.
  revert st t o. induction replies as [|r rest IH]; intros st t o H; simpl in H.
  { injection H as <- _. split; constructor. }
  destruct (iteration filters select_fields progress r st) as [t0 res] eqn:Hit.
  pose proof (iteration_reports _ _ _ _ Hit) as Hrep.
  (* what the iteration itself reports is sorted and bounded below *)
  assert (Hone : StronglySorted Qle (reports_of t0)
                 /\ (total_count st <> JNull ->
                     Forall (Qle (fraction (List.length (records st))
                                           (max_one_value (total_count st))))
                            (reports_of t0))).
  { destruct Hrep as [-> | (text & members & c & st' & -> & -> & _ & _ & _ & _ & _ & ->)].
    - split; constructor.
    - destruct (iteration_keeps_total _ _ _ _ _ Hit) as [Hk Hlen].
      split; [repeat constructor|].
      intros Hn. rewrite (Hk Hn). constructor; [|constructor].
      apply fraction_mono; [assumption | apply max_one_value_pos]. }
  destruct res as [[[] st1]|e].
  - (* Continue *)
    destruct (fetch_loop filters select_fields progress rest st1) as [t1 o1] eqn:Hrun.
    injection H as <- <-.
    destruct (IH _ _ _ Hrun) as [Hs1 Hb1].
    destruct (iteration_keeps_total _ _ _ _ _ Hit) as [Hk Hlen].
    rewrite reports_of_app. split.
    + destruct Hrep as [-> | (text & members & c & st' & _ & E & _ & _ & _ & Ht & _ & ->)].
      * exact Hs1.
      * injection E as _ <-. cbn [app]. constructor; [exact Hs1|].
        apply Hb1. now apply truthy_not_null.
    + intros Hn. apply Forall_app. split; [now apply (proj2 Hone)|].
      assert (Hn1 : total_count st1 <> JNull) by (rewrite (Hk Hn); exact Hn).
      eapply Forall_impl; [|exact (Hb1 Hn1)].
      intros x Hx. eapply Qle_trans; [|exact Hx].
      rewrite (Hk Hn). apply fraction_mono; [assumption | apply max_one_value_pos].
  - injection H as <- _. exact Hone.
  - injection H as <- _. exact Hone.
Qed.

Lemma fetch_loop_silent (replies : list reply) (st : loop_state)
    (t : list event) (o : outcome) :
  fetch_loop filters select_fields progress replies st = (t, o) ->
  progress = false
  \/ (truthy (total_count st) = false
      /\ forall r, In r replies -> carries_count r = false) ->
  reports_of t = [].
Proof.
  revert st t o. induction replies as [|r rest IH]; intros st t o H Hq; simpl in H.
  { now injection H as <- _. }
  destruct (iteration filters select_fields progress r st) as [t0 res] eqn:Hit.
  assert (Hone : reports_of t0 = []
                 /\ forall c st1, res = Ok (c, st1) ->
                      progress = false \/ truthy (total_count st1) = false).
  { destruct Hq as [Hp | [Hf Hall]].
    - split; [|now left].
      destruct (iteration_reports _ _ _ _ Hit)
        as [E | (_ & _ & _ & _ & _ & _ & Hp' & _)]; [exact E | congruence].
    - assert (Hr : carries_count r = false) by (apply Hall; now left).
      pose proof (iteration_inv _ _ _ _ _ _ _ Hit) as Hinv.
      destruct Hinv as [[-> [e ->]] | (text & members & total & -> & Htotal & Hinv)].
      { split; [reflexivity | discriminate]. }
      assert (Hft : truthy total = false).
      { destruct (truthy total) eqn:Ht; [|reflexivity].
        destruct (next_total_source _ _ _ Htotal Ht) as [[_ ->] | [_ Hc]];
          [congruence|].
        simpl in Hr. rewrite Hc in Hr. congruence. }
      rewrite Hft, andb_false_r in Hinv.
      destruct Hinv as [(_ & -> & ->) | (_ & -> & [[_ ->] | [Hq' _]])];
        try discriminate.
      + split; [reflexivity|]. intros c st1 E. injection E as _ <-. now right.
      + split; [reflexivity|]. intros c st1 E. injection E as _ <-. now right. }
  destruct Hone as [Hr0 Hnext].
  destruct res as [[[] st1]|e].
  - destruct (fetch_loop filters select_fields progress rest st1) as [t1 o1] eqn:Hrun.
    injection H as <- <-. rewrite reports_of_app, Hr0. cbn [app].
    apply (IH _ _ _ Hrun).
    destruct Hq as [Hp | [_ Hall]]; [now left|].
    destruct (Hnext _ _ eq_refl) as [Hp | Hf]; [now left | right].
    split; [exact Hf|]. intros r' Hr'. apply Hall. now right.
  - now injection H as <- _.
  - now injection H as <- _.
Qed.

End Progress.

(** C9: the fractions reported during one run never decrease.  One
    iteration reports at most one fraction, after a page with rows, and only
    when an observer was given and a total count that is not zero is known,
    from an earlier page or from the [count] of this one; the fraction is
    [min(1, n / max(total, 1))] with [n] the number of records accumulated.
    Without an observer, or when no reply carries such a count, nothing is
    reported. *)
Theorem progress_reports_monotone
    (filters : string) (select_fields : option (list string)) (progress : bool)
    (replies : list reply) :
  let t := fst (fetch_all filters select_fields progress replies) in
  StronglySorted Qle (reports_of t)
  /\ (forall r st t0 res,
        iteration filters select_fields progress r st = (t0, res) ->
        reports_of t0 = []
        \/ exists text members c st',
             r = Response 200 text (Some (JObj members))
             /\ res = Ok (c, st')
             /\ progress = true
             /\ page_rows members <> []
             /\ records st' = (records st ++ page_rows members)%list
             /\ truthy (total_count st') = true
             /\ ((total_count st <> JNull /\ total_count st' = total_count st)
                 \/ (total_count st = JNull
                     /\ count_member members = Some (total_count st')))
             /\ reports_of t0
                = [fraction (List.length (records st')) (max_one_value (total_count st'))])
  /\ (forall n d, fraction n d == Qmin 1 (inject_Z (Z.of_nat n) / d))%Q
  /\ (forall q, max_one_value (JNum q) == Qmax q 1)%Q
  /\ (progress = false -> reports_of t = [])
  /\ ((forall r, In r replies -> carries_count r = false) -> reports_of t = []).
Proof.
  intros t. subst t. unfold fetch_all.
  destruct (fetch_loop filters select_fields progress replies initial_state)
    as [t o] eqn:Hrun.
  cbn [fst]. split; [exact (proj1 (fetch_loop_reports_sorted _ _ _ _ _ _ _ Hrun))|].
  split; [apply iteration_reports|].
  split; [apply fraction_is_min|].
  split; [apply max_one_value_is_max|].
  split.
  - intros Hp. apply (fetch_loop_silent _ _ _ _ _ _ _ Hrun). now left.
  - intros Hall. apply (fetch_loop_silent _ _ _ _ _ _ _ Hrun). right. now split.
Qed.

Lemma progress_reports_monotone_witness :
  reports_of (fst (fetch_all "incidentType eq 'Fire'" None true
                     [Response 200 "" (Some (JObj [("items", JList [sample_row])]))]))
  = [].
Proof.
  apply (proj2 (proj2 (proj2 (proj2 (proj2
           (progress_reports_monotone "incidentType eq 'Fire'" None true
              [Response 200 "" (Some (JObj [("items", JList [sample_row])]))])))))).
  intros r [<- | []]. reflexivity.
Defined.

Example progress_reports_three_pages :
  reports_of (fst (fetch_all "incidentType eq 'Fire'" None true
                     (map (page_reply 2400)
                          [repeat sample_row 1000; repeat sample_row 1000;
                           repeat sample_row 400])))
  = [(1000 # 2400)%Q; (2000 # 2400)%Q; 1%Q].
Proof. vm_compute. reflexivity. Qed.

(** ** Order of labels and keys *)

Lemma ascii_compare_trans (a b c : ascii) :
  Ascii.compare a b = Lt -> Ascii.compare b c = Lt -> Ascii.compare a c = Lt.
Proof.
  unfold Ascii.compare. rewrite !N.compare_lt_iff. lia.
Qed.

Lemma string_compare_refl (s : string) : String.compare s s = Eq.
Proof.
  induction s as [|c s IH]; simpl; [reflexivity|].
  replace (Ascii.compare c c) with Eq; [exact IH|].
  symmetry. unfold Ascii.compare. apply N.compare_refl.
Qed.

Lemma string_compare_eq (a b : string) : String.compare a b = Eq <-> a = b.
Proof.
  split; [apply String.compare_eq_iff | intros ->; apply string_compare_refl].
Qed.

Lemma string_compare_trans (a b c : string) :
  String.compare a b = Lt -> String.compare b c = Lt -> String.compare a c = Lt.
Proof.
  revert b c. induction a as [|x a IH]; intros [|y b] [|z c]; simpl; try congruence.
  destruct (Ascii.compare x y) eqn:Exy; try discriminate;
    destruct (Ascii.compare y z) eqn:Eyz; try discriminate; intros H1 H2.
  - apply Ascii.compare_eq_iff in Exy, Eyz. subst.
    replace (Ascii.compare z z) with Eq
      by (symmetry; unfold Ascii.compare; apply N.compare_refl).
    now apply IH with (b := b).
  - apply Ascii.compare_eq_iff in Exy. subst. now rewrite Eyz.
  - apply Ascii.compare_eq_iff in Eyz. subst. now rewrite Exy.
  - now rewrite (ascii_compare_trans _ _ _ Exy Eyz).
Qed.

Lemma label_compare_eq (a b : label) : label_compare a b = Eq <-> a = b.
Proof.
  destruct a as [x|], b as [y|]; simpl; try (split; congruence).
  rewrite string_compare_eq. split; congruence.
Qed.

Lemma label_compare_antisym (a b : label) :
  label_compare a b = CompOpp (label_compare b a).
Proof.
  destruct a as [x|], b as [y|]; simpl; try reflexivity.
  apply String.compare_antisym.
Qed.

Lemma label_compare_trans (a b c : label) :
  label_compare a b = Lt -> label_compare b c = Lt -> label_compare a c = Lt.
Proof.
  destruct a as [x|], b as [y|], c as [z|]; simpl; try congruence.
  apply string_compare_trans.
Qed.

Lemma key_compare_eq (a b : key) : key_compare a b = Eq <-> a = b.
Proof.
  destruct a as [[a1 a2] a3], b as [[b1 b2] b3]. simpl. split.
  - destruct (label_compare a1 b1) eqn:E1; try discriminate.
    destruct (label_compare a2 b2) eqn:E2; try discriminate.
    intros E3. apply label_compare_eq in E1, E2, E3. congruence.
  - intros H. injection H as -> -> ->.
    now rewrite !(proj2 (label_compare_eq _ _) eq_refl).
Qed.

Lemma key_compare_antisym (a b : key) :
  key_compare a b = CompOpp (key_compare b a).
Proof.
  destruct a as [[a1 a2] a3], b as [[b1 b2] b3]. simpl.
  rewrite (label_compare_antisym a1 b1), (label_compare_antisym a2 b2),
    (label_compare_antisym a3 b3).
  destruct (label_compare b1 a1); simpl; try reflexivity.
  destruct (label_compare b2 a2); reflexivity.
Qed.

Lemma key_compare_trans (a b c : key) :
  key_compare a b = Lt -> key_compare b c = Lt -> key_compare a c = Lt.
Proof.
  destruct a as [[a1 a2] a3], b as [[b1 b2] b3], c as [[c1 c2] c3]. simpl.
  destruct (label_compare a1 b1) eqn:A1; try discriminate;
    destruct (label_compare b1 c1) eqn:B1; try discriminate;
    try (apply label_compare_eq in A1; subst);
    try (apply label_compare_eq in B1; subst);
    try rewrite (proj2 (label_compare_eq _ _) eq_refl);
    try rewrite A1; try rewrite B1;
    try rewrite (label_compare_trans _ _ _ A1 B1); try reflexivity.
  destruct (label_compare a2 b2) eqn:A2; try discriminate;
    destruct (label_compare b2 c2) eqn:B2; try discriminate;
    try (apply label_compare_eq in A2; subst);
    try (apply label_compare_eq in B2; subst);
    try rewrite (proj2 (label_compare_eq _ _) eq_refl);
    try rewrite A2; try rewrite B2;
    try rewrite (label_compare_trans _ _ _ A2 B2); try reflexivity.
  apply label_compare_trans.
Qed.

Lemma insert_key_in (k x : key) (l : list key) :
  In x (insert_key k l) <-> x = k \/ In x l.
Proof.
  induction l as [|h t IH]; simpl; [intuition congruence|].
  destruct (key_compare k h) eqn:E; simpl.
  - apply key_compare_eq in E. subst. intuition congruence.
  - intuition congruence.
  - rewrite IH. intuition congruence.
Qed.

Lemma insert_key_sorted (k : key) (l : list key) :
  StronglySorted key_lt l -> StronglySorted key_lt (insert_key k l).
Proof.
  induction 1 as [|h t Hs IH Hall]; simpl; [repeat constructor|].
  destruct (key_compare k h) eqn:E.
  - now constructor.
  - constructor; [now constructor|]. constructor; [exact E|].
    eapply Forall_impl; [|exact Hall]. intros x Hx. eapply key_compare_trans; eassumption.
  - constructor; [exact IH|]. apply Forall_forall. intros x Hx.
    apply insert_key_in in Hx. destruct Hx as [-> | Hx].
    + unfold key_lt. rewrite key_compare_antisym, E. reflexivity.
    + rewrite Forall_forall in Hall. now apply Hall.
Qed.

Lemma group_keys_spec (keys : list key) :
  StronglySorted key_lt (group_keys keys)
  /\ forall k, In k (group_keys keys) <-> In k keys.
Proof.
  unfold group_keys.
  assert (G : forall acc, StronglySorted key_lt acc ->
            StronglySorted key_lt (fold_left (fun a k => insert_key k a) keys acc)
            /\ forall k, In k (fold_left (fun a k => insert_key k a) keys acc)
                         <-> In k acc \/ In k keys).
  { induction keys as [|x l IH]; intros acc Hacc; simpl; [split; [assumption | intros k; tauto]|].
    destruct (IH (insert_key x acc) (insert_key_sorted _ _ Hacc)) as [Hs Hin].
    split; [exact Hs|]. intros k. rewrite Hin, insert_key_in. intuition congruence. }
  destruct (G [] (SSorted_nil _)) as [Hs Hin]. split; [exact Hs|].
  intros k. rewrite Hin. simpl. tauto.
Qed.

(** ** Order of the summary *)

Lemma StronglySorted_map {A B} (R : A -> A -> Prop) (R' : B -> B -> Prop)
    (f : A -> B) (l : list A) :
  (forall x y, R x y -> R' (f x) (f y)) ->
  StronglySorted R l -> StronglySorted R' (map f l).
Proof.
  intros Hf. induction 1 as [|x l Hs IH Hall]; simpl; constructor; [exact IH|].
  apply Forall_forall. intros y Hy. apply in_map_iff in Hy.
  destruct Hy as [z [<- Hz]]. rewrite Forall_forall in Hall. auto.
Qed.

Lemma Qle_bool_total (x y : Q) : Qle_bool x y = true \/ Qle_bool y x = true.
Proof.
  destruct (Qlt_le_dec x y) as [H | H].
  - left. apply Qle_bool_iff, Qlt_le_weak, H.
  - right. apply Qle_bool_iff, H.
Qed.

Section StableSort.

Context {D : Type}.

Lemma sort_le_total (a b : summary_row D) : sort_le a b = true \/ sort_le b a = true.
Proof.
  unfold sort_le. rewrite (label_compare_antisym (state b) (state a)).
  destruct (label_compare (state a) (state b)); simpl; auto.
  apply or_comm, Qle_bool_total.
Qed.

Lemma sort_le_trans (a b c : summary_row D) :
  sort_le a b = true -> sort_le b c = true -> sort_le a c = true.
Proof.
  unfold sort_le.
  destruct (label_compare (state a) (state b)) eqn:Eab; try discriminate;
    destruct (label_compare (state b) (state c)) eqn:Ebc; try discriminate;
    intros Hab Hbc.
  - apply label_compare_eq in Eab, Ebc.
    rewrite Eab, Ebc, (proj2 (label_compare_eq _ _) eq_refl).
    apply Qle_bool_iff in Hab, Hbc. apply Qle_bool_iff. eapply Qle_trans; eassumption.
  - apply label_compare_eq in Eab. now rewrite Eab, Ebc.
  - apply label_compare_eq in Ebc. now rewrite <- Ebc, Eab.
  - now rewrite (label_compare_trans _ _ _ Eab Ebc).
Qed.

Lemma sort_insert_in (x y : summary_row D) (l : list (summary_row D)) :
  In y (sort_insert x l) <-> y = x \/ In y l.
Proof.
  induction l as [|h t IH]; simpl; [intuition congruence|].
  destruct (sort_le x h); simpl; [|rewrite IH]; intuition congruence.
Qed.

Lemma sort_values_in (y : summary_row D) (l : list (summary_row D)) :
  In y (sort_values l) <-> In y l.
Proof.
  induction l as [|h t IH]; simpl; [tauto|].
  rewrite sort_insert_in, IH. intuition congruence.
Qed.

(** The order the rows come in. *)
Variable before : summary_row D -> summary_row D -> Prop.

Lemma sort_insert_sorted (x : summary_row D) (l : list (summary_row D)) :
  StronglySorted (refined before) l -> Forall (before x) l ->
  StronglySorted (refined before) (sort_insert x l).
Proof.
  induction 1 as [|h t Hs IH Hall]; intros Hx; simpl; [repeat constructor|].
  inversion Hx as [|? ? Hxh Hxt]; subst.
  destruct (sort_le x h) eqn:E.
  - constructor; [now constructor|].
    constructor; [split; [exact E | now right]|].
    rewrite Forall_forall in Hall, Hxt. apply Forall_forall. intros z Hz.
    split; [|right; now apply Hxt].
    apply sort_le_trans with (b := h); [exact E | apply (Hall z Hz)].
  - constructor; [now apply IH|].
    apply Forall_forall. intros z Hz. apply sort_insert_in in Hz.
    destruct Hz as [-> | Hz].
    + destruct (sort_le_total x h) as [H | H]; [congruence|]. split; auto.
    + rewrite Forall_forall in Hall. now apply Hall.
Qed.

(** The sort is stable. *)
Lemma sort_values_sorted (l : list (summary_row D)) :
  StronglySorted before l -> StronglySorted (refined before) (sort_values l).
Proof.
  induction 1 as [|x t Hs IH Hall]; simpl; [constructor|].
  apply sort_insert_sorted; [exact IH|].
  rewrite Forall_forall in *. intros y Hy. apply Hall. now apply sort_values_in.
Qed.

End StableSort.

Lemma refined_comes_before (date_str : option Z -> string)
    (a b : summary_row (option Z)) :
  refined (fun x y => key_lt (summary_key x) (summary_key y)) a b ->
  comes_before (render date_str a) (render date_str b).
Proof.
  unfold refined, comes_before, sort_le, key_lt, summary_key. cbn [render state
    totalFederalShareObligated summaryApplicantId summaryApplicantName key_compare].
  rewrite (label_compare_antisym (state b) (state a)).
  destruct (label_compare (state a) (state b)) eqn:Es; cbn [CompOpp].
  - apply label_compare_eq in Es. intros [Hab [Hba | Hkey]]; right.
    + left. split; [exact Es|]. apply Qnot_le_lt. intros H.
      apply Qle_bool_iff in H. congruence.
    + destruct (Qle_bool (totalFederalShareObligated a) (totalFederalShareObligated b))
        eqn:Hba.
      * right. split; [exact Es|]. apply Qle_bool_iff in Hab, Hba.
        split; [now apply Qle_antisym|].
        destruct (label_compare (summaryApplicantId a) (summaryApplicantId b)) eqn:Ei;
          try discriminate; [right | now left].
        apply label_compare_eq in Ei. now split.
      * left. split; [exact Es|]. apply Qnot_le_lt. intros H.
        apply Qle_bool_iff in H. congruence.
  - intros _. now left.
  - intros [H _]. discriminate.
Qed.

(** ** summarize *)

Lemma has_label_iff (labels : list string) (c : string) :
  has_label labels c = true <-> In c labels.
Proof.
  unfold has_label. rewrite existsb_exists. split.
  - intros [x [Hx E]]. apply String.eqb_eq in E. now subst.
  - intros H. exists c. split; [exact H | apply String.eqb_refl].
Qed.

Lemma filter_map_comm {A B} (f : B -> bool) (g : A -> B) (l : list A) :
  filter f (map g l) = map g (filter (fun x => f (g x)) l).
Proof.
  induction l as [|x l IH]; simpl; [reflexivity|].
  destruct (f (g x)); simpl; now rewrite IH.
Qed.

Lemma count_all_present (cells : list text_cell) :
  Forall (fun v => notna v = true) cells -> count cells = Z.of_nat (List.length cells).
Proof.
  intros H. unfold count. f_equal. f_equal.
  induction H as [|v l Hv _ IH]; simpl; [reflexivity|]. now rewrite Hv, IH.
Qed.

Lemma count_all_missing (cells : list text_cell) :
  Forall (fun v => notna v = false) cells -> count cells = 0.
Proof.
  intros H. unfold count.
  replace (filter notna cells) with (@nil text_cell); [reflexivity|].
  induction H as [|v l Hv _ IH]; simpl; [reflexivity|]. now rewrite Hv.
Qed.

Section SummarizeFacts.

Variable to_datetime : text_cell -> option Z.
Variable date_str : option Z -> string.

Lemma summarize_empty (df : DataFrame) (include exclude : list string) :
  empty df = true ->
  summarize to_datetime date_str df include exclude = Ok (Records df).
Proof. intros H. unfold summarize. now rewrite H. Qed.

Lemma summarize_summary_inv (df : DataFrame) (include exclude : list string)
    (groups : list UtilitySummary) :
  summarize to_datetime date_str df include exclude = Ok (Summary groups) ->
  groups = grouped to_datetime date_str df include exclude.
Proof.
  unfold summarize. destruct (empty df); [discriminate|].
  destruct (missing_column df _); [discriminate|].
  intros H. now injection H as <-.
Qed.

Lemma grouped_sorted (df : DataFrame) (include exclude : list string) :
  StronglySorted comes_before (grouped to_datetime date_str df include exclude).
Proof.
  unfold grouped.
  apply StronglySorted_map
    with (R := refined (fun x y => key_lt (summary_key x) (summary_key y)));
    [apply refined_comes_before|].
  apply sort_values_sorted. unfold groupby. rewrite map_map.
  apply StronglySorted_map with (R := key_lt).
  - intros [[x1 x2] x3] [[y1 y2] y3] H. exact H.
  - apply group_keys_spec.
Qed.

(** C7, amended: the summary is sorted by state ascending and, within a
    state, by total federal share descending; groups of one state with the
    same total stand in the order the grouping gives them, ascending
    applicant identifier and then applicant name. *)
Theorem summary_is_sorted (df : DataFrame) (include exclude : list string)
    (groups : list UtilitySummary) :
  summarize to_datetime date_str df include exclude = Ok (Summary groups) ->
  StronglySorted comes_before groups.
Proof.
  intros H. rewrite (summarize_summary_inv _ _ _ _ H). apply grouped_sorted.
Qed.

(** C10: on a frame without rows [summarize] returns the frame it was
    given, so the result has the columns of the input and none of the
    columns a summary adds, unless the input had them; a frame with rows
    and the columns the function reads gives the summary columns. *)
Theorem summarize_empty_returns_input (df : DataFrame) (include exclude : list string) :
  rows df = [] ->
  summarize to_datetime date_str df include exclude = Ok (Records df)
  /\ frame_columns (Records df) = columns df
  /\ (forall c, In c derived_columns -> ~ In c (columns df) ->
      ~ In c (frame_columns (Records df)))
  /\ (forall df' f, empty df' = false ->
      summarize to_datetime date_str df' include exclude = Ok f ->
      frame_columns f = summary_columns).
Proof.
  intros H. split; [|split; [reflexivity | split]].
  - apply summarize_empty. unfold empty. now rewrite H.
  - intros c _ Hc. exact Hc.
  - intros df' f He. unfold summarize. rewrite He.
    destruct (missing_column df' _); [discriminate|].
    intros E. now injection E as <-.
Qed.

(** What a group of the summary holds: it has at least one matching row;
    its total is the sum of the amounts of its rows, an amount that is
    missing or not a number counting for 0; its project count is the
    number of its rows when the applicant identifier is present, and 0
    when it is missing. *)
Lemma summary_group_contents (df : DataFrame) (include exclude : list string)
    (groups : list UtilitySummary) (g : UtilitySummary) :
  summarize to_datetime date_str df include exclude = Ok (Summary groups) ->
  In g groups ->
  let members :=
    filter (fun r => key_eqb (key_of (prepare to_datetime r)) (summary_key g))
           (matching df include exclude) in
  members <> []
  /\ totalFederalShareObligated g
     = sum (map (fun r => fillna_zero (to_numeric (federalShareObligated r))) members)
  /\ projectCount g
     = match summaryApplicantId g with
       | Some _ => Z.of_nat (List.length members)
       | None => 0
       end.
Proof.
  intros H Hg. rewrite (summarize_summary_inv _ _ _ _ H) in Hg. unfold grouped in Hg.
  apply in_map_iff in Hg. destruct Hg as [g0 [<- Hg0]].
  apply (proj1 (sort_values_in _ _)) in Hg0. apply in_map_iff in Hg0.
  destruct Hg0 as [[k ms] [<- Hk]]. unfold groupby in Hk.
  apply in_map_iff in Hk. destruct Hk as [k' [E Hk']]. injection E as -> Ems.
  apply (proj1 (proj2 (group_keys_spec _) _)) in Hk'. apply in_map_iff in Hk'.
  destruct Hk' as [p [Hpk Hp]]. apply in_map_iff in Hp. destruct Hp as [r [<- Hr]].
  destruct k as [[st id] name].
  change (summary_key (render date_str (agg (st, id, name, ms)))) with (st, id, name).
  change (totalFederalShareObligated (render date_str (agg (st, id, name, ms))))
    with (sum (map share ms)).
  change (projectCount (render date_str (agg (st, id, name, ms))))
    with (count (map (fun p => applicantId (award p)) ms)).
  change (summaryApplicantId (render date_str (agg (st, id, name, ms)))) with id.
  intros members. rewrite filter_map_comm in Ems. fold members in Ems. subst ms.
  assert (Hall : forall x, In x members -> na (applicantId x) = id).
  { intros x Hx. apply filter_In in Hx. destruct Hx as [_ Hx].
    cbv beta in Hx. unfold key_eqb in Hx.
    destruct (key_compare (key_of (prepare to_datetime x)) (st, id, name)) eqn:E;
      try discriminate.
    apply key_compare_eq in E. unfold key_of in E. cbn [award prepare] in E.
    congruence. }
  split; [|split].
  - assert (Hin : In r members).
    { apply filter_In. split; [exact Hr|]. cbv beta. unfold key_eqb.
      now rewrite (proj2 (key_compare_eq _ _) Hpk). }
    intros E. rewrite E in Hin. contradiction.
  - rewrite map_map. reflexivity.
  - rewrite map_map. cbn [award prepare].
    destruct id as [i|].
    + rewrite count_all_present, length_map; [reflexivity|].
      apply Forall_forall. intros v Hv. apply in_map_iff in Hv.
      destruct Hv as [x [<- Hx]]. unfold notna. now rewrite (Hall x Hx).
    + apply count_all_missing.
      apply Forall_forall. intros v Hv. apply in_map_iff in Hv.
      destruct Hv as [x [<- Hx]]. unfold notna. now rewrite (Hall x Hx).
Qed.

End SummarizeFacts.

(** ** Worked frames *)

(** C6: for two rows of one group with amounts 100 and "not-a-number" the
    total is 100, the second amount counting for 0; the project count is the
    count of the applicant identifiers that are present, so it is 0, not 2,
    when the identifier of the group is missing. *)
Theorem project_count_without_applicant_id :
  summarize no_date nat_text frame_without_id ["water"] []
  = Ok (Summary [group_row "CA" None "Paradise Water District" 0 100]).
Proof. vm_compute. reflexivity. Qed.

Example project_count_with_applicant_id :
  summarize no_date nat_text frame_with_id ["water"] []
  = Ok (Summary [group_row "CA" (Some "007-U1") "Paradise Water District" 2 100]).
Proof. vm_compute. reflexivity. Qed.

(** C7, counterexample: of two groups that tie on state and total, the one
    discovered first in the input comes second in the summary. *)
Lemma summary_ties_not_in_discovery_order :
  map applicantId (rows frame_with_tie) = [TStr "2"; TStr "1"]
  /\ summarize no_date nat_text frame_with_tie ["water"] []
     = Ok (Summary [group_row "CA" (Some "1") "Alpine Water Company" 1 100;
                    group_row "CA" (Some "2") "Butte Water Works" 1 100]).
Proof. split; [reflexivity | vm_compute; reflexivity]. Qed.

Lemma summary_is_sorted_witness :
  summarize no_date nat_text frame_with_three_groups ["water"; "irrigation"] []
  = Ok (Summary
          [group_row "AZ" (Some "9") "Yuma Irrigation District" 1 20;
           group_row "CA" (Some "1") "Alpine Water Company" 1 1500;
           group_row "CA" (Some "2") "Butte Water Works" 1 500])
  /\ StronglySorted comes_before
       [group_row "AZ" (Some "9") "Yuma Irrigation District" 1 20;
        group_row "CA" (Some "1") "Alpine Water Company" 1 1500;
        group_row "CA" (Some "2") "Butte Water Works" 1 500].
Proof.
  split.
  - vm_compute. reflexivity.
  - apply (summary_is_sorted no_date nat_text frame_with_three_groups
             ["water"; "irrigation"] []).
    vm_compute. reflexivity.
Defined.

Lemma summarize_empty_returns_input_witness :
  summarize no_date nat_text frame_of_no_records ["water"] []
  = Ok (Records frame_of_no_records)
  /\ ~ In "projectCount" (frame_columns (Records frame_of_no_records)).
Proof.
  destruct (summarize_empty_returns_input no_date nat_text frame_of_no_records
              ["water"] [] eq_refl) as (Hret & _ & Hcols & _).
  split; [exact Hret|].
  apply Hcols; [simpl; tauto | simpl; tauto].
Defined.

Example summarize_empty_selected_columns :
  summarize no_date nat_text (mk_frame select_fields []) ["water"] []
  = Ok (Records (mk_frame select_fields []))
  /\ forall c, In c derived_columns -> ~ In c select_fields.
Proof.
  split; [reflexivity|].
  intros c Hc H. unfold derived_columns, select_fields in *. simpl in *.
  intuition (subst; discriminate).
Qed.

(** ** Further worked inputs *)

Example build_filter_exact_fire :
  build_filter None None None [] false = "incidentType eq 'Fire'".
Proof. reflexivity. Qed.

Example build_filter_all_clauses :
  build_filter (Some [" ca "; ""; "or"]) (Some "2020-01-01") (Some "2020-12-31")
    ["b"; "  "] true
  = "(substringof('Fire',incidentType) or substringof('Wildfire',incidentType)) and (damageCategoryCode eq 'B') and (stateAbbreviation eq 'CA' or stateAbbreviation eq 'OR') and dateObligated ge '2020-01-01' and dateObligated le '2020-12-31'".
Proof. reflexivity. Qed.

Example request_url_first_page :
  request_url "incidentType eq 'Fire'" (Some ["applicantId"; "applicantName"]) 0
  = "https://www.fema.gov/api/open/v2/PublicAssistanceGrantAwardActivities?%24filter=incidentType+eq+'Fire'&%24top=1000&%24skip=0&%24format=json&%24count=true&%24select=applicantId,applicantName".
Proof. reflexivity. Qed.

Example fetch_all_empty_first_page :
  fetch_all "incidentType eq 'Fire'" None true [page_reply 0 []]
  = ([Requested (request_url "incidentType eq 'Fire'" None 0)],
     Returned [] (request_url "incidentType eq 'Fire'" None 0) (JNum 0)).
Proof. reflexivity. Qed.

Example parse_number_samples :
  parse_number " -12.50 " = Some (-1 * (12 + 50 / 100) * 1)%Q
  /\ parse_number "not-a-number" = None
  /\ parse_number "" = None.
Proof. repeat split. Qed.

(** * Further properties of the code *)

(** ** Splitting and joining *)

Lemma split_not_nil (sep : ascii) (s : string) : split sep s <> [].
Proof.
  induction s as [|c s IH]; simpl; [discriminate|].
  destruct (Ascii.eqb c sep); [discriminate|].
  destruct (split sep s); [contradiction | discriminate].
Qed.

Lemma split_no_sep (sep : ascii) (x : string) :
  mem_char sep x = false -> split sep x = [x].
Proof.
  induction x as [|c x IH]; simpl; [reflexivity|].
  rewrite Ascii.eqb_sym. destruct (Ascii.eqb c sep); simpl; [discriminate|].
  intros H. now rewrite (IH H).
Qed.

Lemma split_piece (sep : ascii) (x rest : string) :
  mem_char sep x = false ->
  split sep (x ++ String sep rest) = x :: split sep rest.
Proof.
  induction x as [|c x IH]; simpl.
  - intros _. now rewrite Ascii.eqb_refl.
  - rewrite Ascii.eqb_sym. destruct (Ascii.eqb c sep); simpl; [discriminate|].
    intros H. now rewrite (IH H).
Qed.

Lemma join_cons2 (sep x y : string) (l : list string) :
  Py.join sep (x :: y :: l) = x ++ sep ++ Py.join sep (y :: l).
Proof. reflexivity. Qed.

(** X1. Splitting at a character and joining with it undo each other:
    joining the pieces of any text gives the text back, and splitting the
    join of a non-empty list gives the list back when no item holds the
    separator. *)
Theorem split_join_round_trip (sep : ascii) :
  (forall s, Py.join (String sep "") (split sep s) = s)
  /\ (forall l, l <> [] ->
      Forall (fun x => mem_char sep x = false) l ->
      split sep (Py.join (String sep "") l) = l).
Proof.
  split.
  - induction s as [|c s IH]; [reflexivity|]. simpl.
    destruct (Ascii.eqb c sep) eqn:E.
    + apply Ascii.eqb_eq in E. subst c.
      pose proof (split_not_nil sep s) as Hn.
      destruct (split sep s) as [|p ps]; [contradiction|].
      rewrite join_cons2, IH. reflexivity.
    + pose proof (split_not_nil sep s) as Hn.
      destruct (split sep s) as [|p [|q ps]]; [contradiction| |].
      * simpl in *. now rewrite IH.
      * rewrite join_cons2. rewrite <- IH, join_cons2. reflexivity.
  - induction l as [|x l IH]; [contradiction|]. intros _ Hall.
    inversion Hall as [|? ? Hx Hl]; subst.
    destruct l as [|y l].
    + simpl. now apply split_no_sep.
    + rewrite join_cons2.
      change (String sep "" ++ Py.join (String sep "") (y :: l))
        with (String sep (Py.join (String sep "") (y :: l))).
      rewrite split_piece by assumption.
      rewrite IH; [reflexivity | discriminate | assumption].
Qed.

Lemma split_join_round_trip_witness :
  split "," (Py.join "," ["water"; "water & sewer"; "wtp"])
  = ["water"; "water & sewer"; "wtp"].
Proof.
  apply (proj2 (split_join_round_trip ",")); [discriminate|].
  repeat constructor.
Defined.

(** ** Lower case *)

Lemma lower_char_space (c : ascii) : Py.is_space (Py.lower_char c) = Py.is_space c.
Proof. destruct c as [[] [] [] [] [] [] [] []]; reflexivity. Qed.

Lemma lower_char_idem (c : ascii) : Py.lower_char (Py.lower_char c) = Py.lower_char c.
Proof. destruct c as [[] [] [] [] [] [] [] []]; reflexivity. Qed.

Lemma lower_idem (s : string) : Py.lower (Py.lower s) = Py.lower s.
Proof.
  unfold Py.lower. induction s as [|c s IH]; simpl; [reflexivity|].
  now rewrite lower_char_idem, IH.
Qed.

Lemma strip_lower (s : string) : Py.strip (Py.lower s) = Py.lower (Py.strip s).
Proof. apply strip_smap, lower_char_space. Qed.

Lemma smap_append (f : ascii -> ascii) (a b : string) :
  Py.smap f (a ++ b) = Py.smap f a ++ Py.smap f b.
Proof. induction a as [|c a IH]; simpl; [reflexivity | now rewrite IH]. Qed.

Lemma smap_length (f : ascii -> ascii) (s : string) :
  String.length (Py.smap f s) = String.length s.
Proof. induction s as [|c s IH]; simpl; [reflexivity | now rewrite IH]. Qed.

Lemma append_inj_length (a a' b b' : string) :
  a ++ b = a' ++ b' -> String.length a = String.length a' -> a = a' /\ b = b'.
Proof.
  revert a'. induction a as [|c a IH]; intros [|c' a'] H Hl; simpl in *;
    try discriminate; [now split|].
  injection H as -> H. injection Hl as Hl.
  destruct (IH _ H Hl) as [-> ->]. now split.
Qed.

Lemma nonblank_true_iff (c : string) : nonblank c = true <-> Py.strip c <> "".
Proof.
  unfold nonblank. destruct (Py.strip c); simpl; split; congruence.
Qed.

(** ** Reading the form *)

Lemma parse_keywords_normal (text : string) :
  Forall normal_keyword (parse_keywords text).
Proof.
  unfold parse_keywords. apply Forall_forall. intros k Hk.
  apply in_map_iff in Hk. destruct Hk as [x [<- Hx]].
  apply filter_In in Hx. destruct Hx as [_ Hx]. apply nonblank_true_iff in Hx.
  repeat split.
  - intros E. apply Hx. apply (f_equal String.length) in E.
    unfold Py.lower in E. rewrite smap_length in E.
    destruct (Py.strip x); [reflexivity | discriminate].
  - now rewrite strip_lower, strip_idem.
  - apply lower_idem.
Qed.

(** X2. The keywords read from a keyword box are always in the form the
    classifier expects (not empty, trimmed, lower-case), and a list of such
    keywords without commas, written into the box as the defaults are, is
    read back unchanged. *)
Theorem parse_keywords_round_trip (keywords : list string) :
  Forall normal_keyword keywords ->
  Forall (fun k => mem_char "," k = false) keywords ->
  parse_keywords (keyword_text keywords) = keywords
  /\ forall text, Forall normal_keyword (parse_keywords text).
Proof.
  intros Hn Hc. split; [|apply parse_keywords_normal].
  unfold parse_keywords, keyword_text.
  destruct keywords as [|k l]; [reflexivity|].
  rewrite (proj2 (split_join_round_trip ",")); [|discriminate|assumption].
  induction Hn as [|x xs [Hne [Hs Hl]] _ IH]; [reflexivity|].
  inversion Hc as [|? ? _ Hc']; subst.
  cbn [filter]. replace (nonblank x) with true.
  - cbn [map]. rewrite Hs, Hl. f_equal. now apply IH.
  - symmetry. apply nonblank_true_iff. now rewrite Hs.
Qed.

Lemma default_include_normal :
  Forall normal_keyword DEFAULT_INCLUDE
  /\ Forall (fun k => mem_char "," k = false) DEFAULT_INCLUDE.
Proof. split; repeat constructor; discriminate. Qed.

Lemma parse_keywords_round_trip_witness :
  parse_keywords (keyword_text DEFAULT_INCLUDE) = DEFAULT_INCLUDE
  /\ parse_keywords (keyword_text DEFAULT_EXCLUDE) = DEFAULT_EXCLUDE.
Proof.
  split.
  - apply (parse_keywords_round_trip DEFAULT_INCLUDE);
      apply default_include_normal.
  - apply (parse_keywords_round_trip DEFAULT_EXCLUDE); constructor.
Defined.

(** X3. The state codes read from the form are trimmed, upper-cased and
    not empty, and [build_filter] would have normalised them anyway: the
    filter built from them is the one built from the raw pieces of the
    text. *)
Theorem handler_states_normalised (states_input : string) (start end_ : option string)
    (cats : list string) (incident_contains : bool) :
  Forall normal_code (entries_of (parse_states states_input))
  /\ handler_filter states_input start end_ cats incident_contains
     = build_filter (Some (split "," states_input)) start end_ cats incident_contains.
Proof.
  unfold handler_filter, parse_states.
  destruct (Py.is_empty states_input) eqn:E.
  - split; [constructor|]. destruct states_input; [|discriminate].
    now apply build_filter_codes.
  - split; [apply emitted_codes_normal|].
    apply build_filter_codes; [reflexivity|].
    cbn [entries_of]. apply emitted_codes_idem.
Qed.

(** ** More on is_water_utility *)

Lemma contains_lower_case (x s : string) :
  Py.contains x (Py.lower s) = true -> Py.lower x = x.
Proof.
  intros H. apply contains_iff in H. destruct H as [pre [post H]].
  assert (E : Py.lower (Py.lower s) = Py.lower pre ++ Py.lower x ++ Py.lower post)
    by (rewrite H; unfold Py.lower; now rewrite !smap_append).
  rewrite lower_idem, H in E.
  apply append_inj_length in E; [|unfold Py.lower; now rewrite smap_length].
  destruct E as [_ E].
  apply append_inj_length in E; [|unfold Py.lower; now rewrite smap_length].
  symmetry. exact (proj1 E).
Qed.

Lemma any_filter {A} (f p : A -> bool) (l : list A) :
  (forall x, f x = true -> p x = true) ->
  Py.any f (filter p l) = Py.any f l.
Proof.
  intros H. unfold Py.any. induction l as [|x l IH]; simpl; [reflexivity|].
  destruct (p x) eqn:Ep; simpl; [now rewrite IH|].
  destruct (f x) eqn:Ef; [rewrite (H x Ef) in Ep; discriminate | exact IH].
Qed.

Lemma any_ext_in {A} (f : A -> bool) (l l' : list A) :
  (forall x, In x l -> f x = true -> exists y, In y l' /\ f y = true) ->
  (forall y, In y l' -> f y = true -> exists x, In x l /\ f x = true) ->
  Py.any f l = Py.any f l'.
Proof.
  intros H H'. apply eq_true_iff_eq. rewrite !any_iff. split.
  - intros [x [Hx Hf]]. exact (H x Hx Hf).
  - intros [y [Hy Hf]]. exact (H' y Hy Hf).
Qed.

Lemma row_text_lower (row : Series) :
  name_of row ++ " " ++ title_of row
  = Py.lower (str_or_empty (row_get applicantName "applicantName" row) ++ " "
              ++ str_or_empty (row_get projectTitle "projectTitle" row)).
Proof. unfold name_of, title_of, Py.lower. now rewrite !smap_append. Qed.

Lemma is_water_utility_unfold (row : Series) (include exclude : list string) :
  is_water_utility row include exclude
  = if Py.any (fun x => Py.contains x (name_of row)) exclude then false
    else Py.any (fun x => Py.contains x (name_of row ++ " " ++ title_of row)) include.
Proof. reflexivity. Qed.

(** X4. A keyword with an upper-case letter never takes part in a match,
    because name and title are compared in lower case: dropping such
    keywords from both lists changes no result. *)
Theorem upper_case_keywords_are_dead (row : Series) (include exclude : list string) :
  is_water_utility row include exclude
  = is_water_utility row (filter is_lower_case include) (filter is_lower_case exclude).
Proof.
  rewrite !is_water_utility_unfold.
  rewrite (any_filter (fun x => Py.contains x (name_of row)) is_lower_case exclude).
  - rewrite (any_filter (fun x => Py.contains x (name_of row ++ " " ++ title_of row))
               is_lower_case include); [reflexivity|].
    intros x Hx. rewrite row_text_lower in Hx.
    apply String.eqb_eq. exact (contains_lower_case _ _ Hx).
  - intros x Hx. apply String.eqb_eq. exact (contains_lower_case _ _ Hx).
Qed.

Lemma contains_empty (s : string) : Py.contains "" s = true.
Proof. destruct s; reflexivity. Qed.

(** X5. An empty keyword occurs in every text: in the exclude list it
    rejects every row, and in the include list it accepts every row that no
    exclude keyword rejects. *)
Theorem empty_keyword_matches_everything (row : Series) (include exclude : list string) :
  (In "" exclude -> is_water_utility row include exclude = false)
  /\ (In "" include ->
      is_water_utility row include exclude
      = negb (Py.any (fun x => Py.contains x (name_of row)) exclude)).
Proof.
  rewrite is_water_utility_unfold. split; intros H.
  - replace (Py.any (fun x => Py.contains x (name_of row)) exclude) with true;
      [reflexivity|].
    symmetry. apply any_iff. exists "". split; [exact H | apply contains_empty].
  - destruct (Py.any (fun x => Py.contains x (name_of row)) exclude); [reflexivity|].
    apply any_iff. exists "". split; [exact H | apply contains_empty].
Qed.

Lemma empty_keyword_matches_everything_witness :
  is_water_utility city_water_department ["water"] [""] = false
  /\ is_water_utility city_water_department [""] ["county"] = true.
Proof.
  split.
  - apply (proj1 (empty_keyword_matches_everything city_water_department ["water"] [""])).
    now left.
  - apply (proj2 (empty_keyword_matches_everything city_water_department [""] ["county"])).
    now left.
Defined.

(** X6. The result depends on the keyword lists only as sets: lists with
    the same members, in any order and with any repetition, classify every
    row alike.  More include keywords never lose a match and more exclude
    keywords never gain one. *)
Theorem classification_depends_on_keyword_sets
    (row : Series) (include include' exclude exclude' : list string) :
  ((forall x, In x include <-> In x include') ->
   (forall x, In x exclude <-> In x exclude') ->
   is_water_utility row include exclude = is_water_utility row include' exclude')
  /\ ((forall x, In x include -> In x include') ->
      is_water_utility row include exclude = true ->
      is_water_utility row include' exclude = true)
  /\ ((forall x, In x exclude -> In x exclude') ->
      is_water_utility row include exclude = false ->
      is_water_utility row include exclude' = false).
Proof.
  split; [|split].
  - intros Hi He. rewrite !is_water_utility_unfold.
    rewrite (any_ext_in _ exclude exclude'), (any_ext_in _ include include');
      [reflexivity | | | |]; intros x Hx Hf; exists x; split;
      solve [assumption | now apply Hi | now apply He].
  - intros Hi. rewrite !is_water_utility_true_iff.
    intros [Hex [x [Hx Hocc]]]. split; [exact Hex|]. exists x. auto.
  - intros He H.
    destruct (is_water_utility row include exclude') eqn:E; [|reflexivity].
    apply is_water_utility_true_iff in E. destruct E as [Hex Hin].
    assert (is_water_utility row include exclude = true); [|congruence].
    apply is_water_utility_true_iff. split; [|exact Hin].
    intros x Hx. apply Hex. now apply He.
Qed.

Lemma classification_depends_on_keyword_sets_witness :
  is_water_utility city_water_department ["sewer"; "water"; "sewer"] []
  = is_water_utility city_water_department ["water"; "sewer"] [].
Proof.
  apply (proj1 (classification_depends_on_keyword_sets city_water_department
                  ["sewer"; "water"; "sewer"] ["water"; "sewer"] [] []));
    intros x; simpl; tauto.
Defined.

Lemma append_assoc (a b c : string) : (a ++ b) ++ c = a ++ b ++ c.
Proof. induction a as [|x a IH]; simpl; [reflexivity | now rewrite IH]. Qed.

Lemma occurs_in_trans (x y z : string) :
  occurs_in x y -> occurs_in y z -> occurs_in x z.
Proof.
  intros [p [q ->]] [p' [q' ->]]. exists (p' ++ p), (q ++ q').
  now rewrite !append_assoc.
Qed.

(** X7. A keyword that contains another include keyword is redundant: if
    every keyword of [include] contains a keyword of [include'], and
    [include'] is part of [include], the two lists classify every row
    alike.  Of the 22 default include keywords 7 decide. *)
Theorem subsumed_keywords_are_redundant
    (row : Series) (include include' exclude : list string) :
  (forall y, In y include' -> In y include) ->
  (forall x, In x include -> exists y, In y include' /\ occurs_in y x) ->
  is_water_utility row include exclude = is_water_utility row include' exclude.
Proof.
  intros Hsub Hcov. rewrite !is_water_utility_unfold.
  destruct (Py.any (fun x => Py.contains x (name_of row)) exclude); [reflexivity|].
  apply any_ext_in.
  - intros x Hx Hf. destruct (Hcov x Hx) as [y [Hy Hocc]]. exists y. split; [exact Hy|].
    apply contains_iff. apply contains_iff in Hf. eapply occurs_in_trans; eassumption.
  - intros y Hy Hf. exists y. split; [now apply Hsub | exact Hf].
Qed.

Lemma default_include_reduces (row : Series) (exclude : list string) :
  is_water_utility row DEFAULT_INCLUDE exclude
  = is_water_utility row
      ["water"; "sanitation"; "sanitary"; "sewer"; "wtp"; "aqueduct";
       "irrigation district"] exclude.
Proof.
  apply subsumed_keywords_are_redundant.
  - intros y Hy. unfold DEFAULT_INCLUDE. simpl in *. intuition (subst; auto 30).
  - assert (H : forallb (fun x => existsb (fun y => Py.contains y x)
                  ["water"; "sanitation"; "sanitary"; "sewer"; "wtp"; "aqueduct";
                   "irrigation district"]) DEFAULT_INCLUDE = true) by reflexivity.
    rewrite forallb_forall in H. intros x Hx. specialize (H x Hx).
    apply existsb_exists in H. destruct H as [y [Hy Hc]].
    exists y. split; [exact Hy | now apply contains_iff].
Qed.

Lemma subsumed_keywords_are_redundant_witness :
  is_water_utility city_water_department ["water"; "water department"] []
  = is_water_utility city_water_department ["water"] [].
Proof.
  apply subsumed_keywords_are_redundant.
  - intros y [<- | []]. now left.
  - intros x [<- | [<- | []]]; exists "water"; (split; [now left|]).
    + exists "", "". reflexivity.
    + exists "", " department". reflexivity.
Defined.

(** ** The request string *)

Lemma mem_char_append (c : ascii) (a b : string) :
  mem_char c (a ++ b) = mem_char c a || mem_char c b.
Proof.
  induction a as [|d a IH]; simpl; [reflexivity|]. now rewrite IH, orb_assoc.
Qed.

Lemma hex_digit_alnum (c : ascii) :
  is_alnum (hex_digit (N_of_ascii c / 16)) = true
  /\ is_alnum (hex_digit (N_of_ascii c mod 16)) = true.
Proof. destruct c as [[] [] [] [] [] [] [] []]; split; reflexivity. Qed.

Lemma quote_plus_chars (safe s : string) (c : ascii) :
  mem_char c (quote_plus safe s) = true -> url_char safe c = true.
Proof.
  unfold url_char. induction s as [|d s IH]; [discriminate|].
  cbn [quote_plus]. cbv zeta. intros H.
  destruct (is_alnum d || mem_char d "_.-~" || mem_char d safe) eqn:Ek.
  - cbn [mem_char] in H. apply orb_true_iff in H. destruct H as [H | H]; [|auto].
    apply Ascii.eqb_eq in H. subst d. now rewrite Ek.
  - destruct (Ascii.eqb d " ").
    + cbn [mem_char] in H. apply orb_true_iff in H. destruct H as [H | H]; [|auto].
      rewrite H. now rewrite orb_true_r.
    + destruct (hex_digit_alnum d) as [H1 H2].
      cbn [mem_char] in H. rewrite !orb_true_iff in H.
      destruct H as [H | [H | [H | H]]]; [| | |auto].
      * rewrite H. apply orb_true_r.
      * apply Ascii.eqb_eq in H. subst c. now rewrite H1.
      * apply Ascii.eqb_eq in H. subst c. now rewrite H2.
Qed.

Lemma quote_plus_without (safe s : string) (c : ascii) :
  url_char safe c = false -> mem_char c (quote_plus safe s) = false.
Proof.
  intros H. destruct (mem_char c (quote_plus safe s)) eqn:E; [|reflexivity].
  apply quote_plus_chars in E. congruence.
Qed.

(** X8. A quoted text holds only letters, digits, [_.-~], the characters
    declared safe, [+] and [%]; so with the safe set of [fetch_all] no
    parameter name or value can hold a [&], a [=] or a space, and the query
    string of any parameter list splits at [&] and [=] into exactly the
    quoted names and values. *)
Theorem query_string_parses_back (params : list (string * string)) :
  (forall safe s c, mem_char c (quote_plus safe s) = true -> url_char safe c = true)
  /\ (forall s, mem_char "&" (quote_plus "(),':" s) = false
                /\ mem_char "=" (quote_plus "(),':" s) = false
                /\ mem_char " " (quote_plus "(),':" s) = false)
  /\ (params <> [] ->
      split "&" (urlencode params "(),':") = map (query_piece "(),':") params)
  /\ (forall kv, In kv params ->
      split "=" (query_piece "(),':" kv)
      = [quote_plus "(),':" (fst kv); quote_plus "(),':" (snd kv)]).
Proof.
  split; [apply quote_plus_chars|].
  split; [intros s; repeat split; now apply quote_plus_without|].
  split.
  - intros Hne. unfold urlencode.
    apply (proj2 (split_join_round_trip "&")).
    + destruct params; [contradiction | discriminate].
    + apply Forall_forall. intros p Hp. apply in_map_iff in Hp.
      destruct Hp as [kv [<- _]]. unfold query_piece.
      rewrite !mem_char_append, !quote_plus_without; reflexivity.
  - intros kv _. unfold query_piece.
    change ("=" ++ quote_plus "(),':" (snd kv))
      with (String "=" (quote_plus "(),':" (snd kv))).
    rewrite split_piece by now apply quote_plus_without.
    now rewrite split_no_sep by now apply quote_plus_without.
Qed.

Lemma query_string_parses_back_witness :
  split "&" (urlencode [("$filter", "a & b = c"); ("$top", "1000")] "(),':")
  = ["%24filter=a+%26+b+%3D+c"; "%24top=1000"].
Proof.
  exact (proj1 (proj2 (proj2 (query_string_parses_back
           [("$filter", "a & b = c"); ("$top", "1000")]))) ltac:(discriminate)).
Defined.

Lemma quote_plus_append (safe a b : string) :
  quote_plus safe (a ++ b) = quote_plus safe a ++ quote_plus safe b.
Proof.
  induction a as [|c a IH]; [reflexivity|].
  cbn [append quote_plus]. cbv zeta. rewrite IH.
  destruct (is_alnum c || mem_char c "_.-~" || mem_char c safe); [reflexivity|].
  destruct (Ascii.eqb c " "); reflexivity.
Qed.

Lemma hex_digit_code (k : N) :
  (k < 16)%N ->
  N_of_ascii (hex_digit k) = (if k <? 10 then 48 + k else 55 + k)%N.
Proof.
  intros H. unfold hex_digit.
  destruct (k <? 10)%N; apply N_ascii_embedding; lia.
Qed.

Lemma hex_digit_inj (j k : N) :
  (j < 16)%N -> (k < 16)%N -> hex_digit j = hex_digit k -> j = k.
Proof.
  intros Hj Hk E. apply (f_equal N_of_ascii) in E.
  rewrite !hex_digit_code in E by assumption.
  destruct (j <? 10)%N eqn:Ej, (k <? 10)%N eqn:Ek;
    try apply N.ltb_lt in Ej; try apply N.ltb_lt in Ek;
    try apply N.ltb_ge in Ej; try apply N.ltb_ge in Ek; lia.
Qed.

Lemma hex_pair_inj (c d : ascii) :
  hex_digit (N_of_ascii c / 16) = hex_digit (N_of_ascii d / 16) ->
  hex_digit (N_of_ascii c mod 16) = hex_digit (N_of_ascii d mod 16) ->
  c = d.
Proof.
  intros Hq Hr.
  pose proof (N_ascii_bounded c) as Bc. pose proof (N_ascii_bounded d) as Bd.
  apply hex_digit_inj in Hq;
    [|apply N.Div0.div_lt_upper_bound; lia | apply N.Div0.div_lt_upper_bound; lia].
  apply hex_digit_inj in Hr; [|apply N.mod_lt; lia | apply N.mod_lt; lia].
  rewrite <- (ascii_N_embedding c), <- (ascii_N_embedding d). f_equal.
  rewrite (N.div_mod (N_of_ascii c) 16), (N.div_mod (N_of_ascii d) 16) by lia.
  now rewrite Hq, Hr.
Qed.

Section QuoteInjective.

Variable safe : string.
Hypothesis percent_not_safe : mem_char "%" safe = false.
Hypothesis plus_not_safe : mem_char "+" safe = false.

(** Two texts are quoted alike only when they are the same text. *)
Lemma quote_plus_inj (s t : string) :
  quote_plus safe s = quote_plus safe t -> s = t.
Proof.
  revert t. induction s as [|c s IH]; intros [|d t]; cbn [quote_plus]; cbv zeta.
  - reflexivity.
  - destruct (is_alnum d || mem_char d "_.-~" || mem_char d safe);
      [discriminate|]. destruct (Ascii.eqb d " "); discriminate.
  - destruct (is_alnum c || mem_char c "_.-~" || mem_char c safe);
      [discriminate|]. destruct (Ascii.eqb c " "); discriminate.
  - destruct (is_alnum c || mem_char c "_.-~" || mem_char c safe) eqn:Kc;
      destruct (is_alnum d || mem_char d "_.-~" || mem_char d safe) eqn:Kd.
    + intros H. injection H as -> H. f_equal. now apply IH.
    + destruct (Ascii.eqb d " "); intros H; injection H as -> H; exfalso.
      * cbn in Kc. now rewrite plus_not_safe in Kc.
      * cbn in Kc. now rewrite percent_not_safe in Kc.
    + destruct (Ascii.eqb c " "); intros H; injection H as <- H; exfalso.
      * cbn in Kd. now rewrite plus_not_safe in Kd.
      * cbn in Kd. now rewrite percent_not_safe in Kd.
    + destruct (Ascii.eqb c " ") eqn:Ec; destruct (Ascii.eqb d " ") eqn:Ed;
        try discriminate.
      * apply Ascii.eqb_eq in Ec, Ed. subst. intros H. injection H as H.
        f_equal. now apply IH.
      * intros H. injection H as H1 H2 H. f_equal; [|now apply IH].
        now apply hex_pair_inj.
Qed.

End QuoteInjective.

Lemma append_cancel_l (a x y : string) : a ++ x = a ++ y -> x = y.
Proof. induction a as [|c a IH]; simpl; [auto | intros H; injection H as H; auto]. Qed.

Lemma str_int_inj (a b : Z) : Py.str_int a = Py.str_int b -> a = b.
Proof.
  unfold Py.str_int. intros H.
  assert (Hn : forall z, Z.to_int z <> Decimal.Pos Decimal.Nil
                         /\ Z.to_int z <> Decimal.Neg Decimal.Nil).
  { intros [|p|p]; simpl; split; try discriminate;
      intros E; injection E as E; exact (DecimalPos.Unsigned.to_uint_nonnil _ E). }
  apply (f_equal NilZero.int_of_string) in H.
  rewrite !NilZero.isi in H by apply Hn.
  injection H as H. now apply DecimalZ.to_int_inj.
Qed.

(** X9. The request string determines the request: quoting is one-to-one,
    so two requests with the same field selection have the same URL only
    when they carry the same filter and the same offset. *)
Theorem request_url_injective (select_fields : option (list string))
    (filters filters' : string) (skip skip' : Z) :
  request_url filters select_fields skip = request_url filters' select_fields skip' ->
  filters = filters' /\ skip = skip'.
Proof.
  unfold request_url. intros H.
  apply append_cancel_l in H. apply append_cancel_l in H.
  apply (f_equal (split "&")) in H.
  rewrite !(proj1 (proj2 (proj2 (query_string_parses_back _)))) in H
    by (unfold request_params; discriminate).
  unfold request_params in H. cbn [map app] in H.
  pose proof (f_equal (fun l => nth 0 l "") H) as Hf.
  pose proof (f_equal (fun l => nth 2 l "") H) as Hs.
  cbn [nth] in Hf, Hs. unfold query_piece in Hf, Hs. cbn [fst snd] in Hf, Hs.
  apply append_cancel_l in Hf. apply append_cancel_l in Hf.
  apply append_cancel_l in Hs. apply append_cancel_l in Hs.
  apply quote_plus_inj in Hf; [|reflexivity|reflexivity].
  apply quote_plus_inj in Hs; [|reflexivity|reflexivity].
  split; [exact Hf | now apply str_int_inj].
Qed.

Lemma request_url_injective_witness :
  "incidentType eq 'Fire'" = "incidentType eq 'Fire'" /\ 1000 = 1000.
Proof.
  exact (request_url_injective None "incidentType eq 'Fire'" "incidentType eq 'Fire'"
           1000 1000 eq_refl).
Defined.

(** ** More on fetch_all *)

Section FetchFacts.

Variable filters : string.
Variable select_fields : option (list string).
Variable progress : bool.

Let url (skip : Z) : string := request_url filters select_fields skip.

Lemma iteration_requests (r : reply) (st : loop_state) (t : list event)
    (res : py_result (control * loop_state)) :
  iteration filters select_fields progress r st = (t, res) ->
  requests_of t = [url (skip st)].
Proof.
  intros H. apply iteration_inv in H.
  destruct H as [[-> _] | (text & members & total & _ & _ & H)]; [reflexivity|].
  destruct H as [(_ & -> & _) | (_ & _ & [[_ ->] | [_ ->]])]; reflexivity.
Qed.

Lemma iteration_continue (r : reply) (st st' : loop_state) (t : list event) :
  iteration filters select_fields progress r st = (t, Ok (Continue, st')) ->
  skip st' = skip st + top
  /\ (Z.of_nat (List.length (records st)) + top
      <= Z.of_nat (List.length (records st'))).
Proof.
  intros H. apply iteration_inv in H.
  destruct H as [[_ [e He]] | (text & members & total & _ & _ & H)]; [discriminate|].
  destruct H as [(_ & _ & H) | (_ & H & _)]; [discriminate|].
  unfold after_page in H.
  destruct (Z.of_nat (List.length (page_rows members)) <? top) eqn:E; [discriminate|].
  injection H as ->. cbn [advance skip records]. split; [reflexivity|].
  apply Z.ltb_ge in E. rewrite length_app. lia.
Qed.

Lemma iteration_continue_page (r : reply) (st st' : loop_state) (t : list event) :
  iteration filters select_fields progress r st = (t, Ok (Continue, st')) ->
  exists text members,
    r = Response 200 text (Some (JObj members))
    /\ top <= Z.of_nat (List.length (page_rows members)).
Proof.
  intros H. apply iteration_inv in H.
  destruct H as [[_ [e He]] | (text & members & total & Hr & _ & H)]; [discriminate|].
  destruct H as [(_ & _ & H) | (_ & H & _)]; [discriminate|].
  exists text, members. split; [exact Hr|].
  unfold after_page in H.
  destruct (Z.of_nat (List.length (page_rows members)) <? top) eqn:E; [discriminate|].
  now apply Z.ltb_ge in E.
Qed.

Lemma iteration_break (r : reply) (st st' : loop_state) (t : list event) :
  iteration filters select_fields progress r st = (t, Ok (Break, st')) ->
  last_url st' = url (skip st)
  /\ (List.length (records st) <= List.length (records st'))%nat
  /\ (records st' = [] -> records st = []).
Proof.
  intros H. apply iteration_inv in H.
  destruct H as [[_ [e He]] | (text & members & total & _ & _ & H)]; [discriminate|].
  destruct H as [(_ & _ & H) | (_ & H & _)].
  - injection H as ->. cbn [last_url records]. repeat split; [lia | tauto].
  - injection H as _ ->. cbn [advance last_url records]. repeat split.
    + rewrite length_app. lia.
    + intros E. now apply app_eq_nil in E.
Qed.

Lemma fetch_loop_requests (replies : list reply) (st : loop_state)
    (t : list event) (o : outcome) :
  fetch_loop filters select_fields progress replies st = (t, o) ->
  exists n,
    (n <= List.length replies)%nat
    /\ requests_of t = map (fun i => url (skip st + top * Z.of_nat i)) (seq 0 n)
    /\ (replies <> [] -> (1 <= n)%nat)
    /\ (forall st', o = Awaiting st' -> n = List.length replies)
    /\ (forall df u total, o = Returned df u total ->
        u = url (skip st + top * (Z.of_nat n - 1))
        /\ Z.of_nat (List.length (records st)) + top * (Z.of_nat n - 1)
           <= Z.of_nat (List.length df)
        /\ (df = [] -> n = 1%nat))
    /\ (forall i, (S i < n)%nat ->
        exists text members,
          nth_error replies i = Some (Response 200 text (Some (JObj members)))
          /\ top <= Z.of_nat (List.length (page_rows members))).
Proof.
  revert st t o. induction replies as [|r rest IH]; intros st t o H; simpl in H.
  { injection H as <- <-. exists 0%nat.
    split; [lia|]. split; [reflexivity|]. split; [congruence|].
    split; [reflexivity|]. split; [discriminate | lia]. }
  destruct (iteration filters select_fields progress r st) as [t0 res] eqn:Hit.
  pose proof (iteration_requests _ _ _ _ Hit) as Hreq.
  destruct res as [[[] st1]|e].
  - destruct (fetch_loop filters select_fields progress rest st1) as [t1 o1] eqn:Hrun.
    injection H as <- <-.
    destruct (IH _ _ _ Hrun) as (n & Hn & Hreq1 & Hpos & Haw & Hret & Hfull).
    destruct (iteration_continue _ _ _ _ Hit) as [Hskip Hlen].
    exists (S n). split; [simpl; lia|]. split; [|split; [|split; [|split]]].
    + rewrite requests_of_app, Hreq, Hreq1, Hskip. cbn [seq map app].
      rewrite Z.mul_0_r, Z.add_0_r. f_equal.
      rewrite <- seq_shift, map_map. apply map_ext. intros i. f_equal. lia.
    + intros _. lia.
    + intros st' E. simpl. f_equal. exact (Haw st' E).
    + intros df u total E. destruct (Hret df u total E) as (Hu & Hdf & Hnil).
      assert (Hrest : rest <> []).
      { intros ->. simpl in Hrun. injection Hrun as _ <-. discriminate. }
      specialize (Hpos Hrest).
      rewrite Hskip in Hu. split; [|split].
      * rewrite Hu. f_equal. lia.
      * lia.
      * intros ->. exfalso. cbn [List.length] in Hdf. unfold top in *. lia.
    + intros [|i] Hi; cbn [nth_error].
      * destruct (iteration_continue_page _ _ _ _ Hit) as (text & members & -> & Hp).
        now exists text, members.
      * apply Hfull. lia.
  - injection H as <- <-. exists 1%nat.
    destruct (iteration_break _ _ _ _ Hit) as (Hu & Hlen & Hnil).
    split; [simpl; lia|]. split; [|split; [|split; [|split]]].
    + rewrite Hreq. cbn [seq map]. now rewrite Z.mul_0_r, Z.add_0_r.
    + intros _. lia.
    + discriminate.
    + intros df u total E. injection E as <- <- _.
      split; [rewrite Hu; f_equal; lia|]. split; [lia | reflexivity].
    + intros i Hi. lia.
  - injection H as <- <-. exists 1%nat.
    split; [simpl; lia|]. split; [|split; [|split; [|split]]].
    + rewrite Hreq. cbn [seq map]. now rewrite Z.mul_0_r, Z.add_0_r.
    + intros _. lia.
    + discriminate.
    + discriminate.
    + intros i Hi. lia.
Qed.

(** X10. Whatever the replies are, the requests of a run carry the offsets
    0, 1000, 2000, ... in order, none skipped and none repeated, one request
    per reply used.  Every reply before the one to the last request was a
    page of at least 1000 rows.  When the function returns, the URL it hands
    back is the one of the last request, the rows it gathered number at least
    1000 for every request before the last, and an empty result comes from a
    run of a single request. *)
Theorem requests_follow_offsets (replies : list reply) :
  let run := fetch_all filters select_fields progress replies in
  exists n,
    (n <= List.length replies)%nat
    /\ requests_of (fst run) = map (fun i => url (top * Z.of_nat i)) (seq 0 n)
    /\ (replies <> [] -> (1 <= n)%nat)
    /\ (forall st', snd run = Awaiting st' -> n = List.length replies)
    /\ (forall df u total, snd run = Returned df u total ->
        u = url (top * (Z.of_nat n - 1))
        /\ top * (Z.of_nat n - 1) <= Z.of_nat (List.length df)
        /\ (df = [] -> n = 1%nat))
    /\ (forall i, (S i < n)%nat ->
        exists text members,
          nth_error replies i = Some (Response 200 text (Some (JObj members)))
          /\ top <= Z.of_nat (List.length (page_rows members))).
Proof.
  intros run. subst run. unfold fetch_all.
  destruct (fetch_loop filters select_fields progress replies initial_state)
    as [t o] eqn:Hrun.
  destruct (fetch_loop_requests _ _ _ _ Hrun) as (n & H1 & H2 & H3 & H4 & H5 & H6).
  exists n. cbn [fst snd]. cbn [initial_state skip records List.length] in *.
  split; [exact H1|]. split; [exact H2|]. split; [exact H3|]. split; [exact H4|].
  split; [|exact H6].
  intros df u total H. destruct (H5 df u total H) as (Hu & Hd & Hn).
  split; [exact Hu|]. split; [|exact Hn].
  cbn [List.length] in Hd. lia.
Qed.

(** X11. Replies that follow the point where the run ended are never
    used: a run that returned or raised gives the same events and the same
    outcome whatever replies are appended. *)
Theorem later_replies_are_ignored (replies more : list reply) :
  (forall st, snd (fetch_all filters select_fields progress replies) <> Awaiting st) ->
  fetch_all filters select_fields progress (replies ++ more)%list
  = fetch_all filters select_fields progress replies.
Proof.
  unfold fetch_all. generalize initial_state.
  induction replies as [|r rest IH]; intros st H.
  - exfalso. apply (H st). reflexivity.
  - cbn [app fetch_loop] in *.
    destruct (iteration filters select_fields progress r st) as [t0 [[[] st1]|e]];
      try reflexivity.
    rewrite IH; [reflexivity|].
    intros st' E. apply (H st').
    destruct (fetch_loop filters select_fields progress rest st1). simpl in *. exact E.
Qed.

End FetchFacts.

Lemma requests_follow_offsets_witness :
  exists n,
    requests_of (fst (fetch_all "incidentType eq 'Fire'" None false
                        [page_reply 1 [sample_row]; Response 500 "" None]))
    = map (fun i => request_url "incidentType eq 'Fire'" None (top * Z.of_nat i))
          (seq 0 n)
    /\ (n <= 2)%nat.
Proof.
  destruct (requests_follow_offsets "incidentType eq 'Fire'" None false
              [page_reply 1 [sample_row]; Response 500 "" None])
    as (n & Hn & Hreq & _).
  exists n. split; [exact Hreq | exact Hn].
Defined.

Lemma later_replies_are_ignored_witness :
  fetch_all "incidentType eq 'Fire'" None false
    ([page_reply 1 [sample_row]] ++ [Response 500 "" None])
  = fetch_all "incidentType eq 'Fire'" None false [page_reply 1 [sample_row]].
Proof.
  apply later_replies_are_ignored. intros st. discriminate.
Defined.

Lemma fetch_all_reports_sorted (filters : string) (select_fields : option (list string))
    (progress : bool) (replies : list reply) :
  StronglySorted Qle (reports_of (fst (fetch_all filters select_fields progress replies))).
Proof.
  unfold fetch_all.
  destruct (fetch_loop filters select_fields progress replies initial_state)
    as [t o] eqn:Hrun.
  exact (proj1 (fetch_loop_reports_sorted _ _ _ _ _ _ _ Hrun)).
Qed.

Section FetchOutcomes.

Variable filters : string.
Variable select_fields : option (list string).
Variable progress : bool.

Lemma fraction_bounds (n : nat) (d : Q) :
  (0 < d)%Q -> (0 <= fraction n d /\ fraction n d <= 1)%Q.
Proof.
  intros Hd. unfold fraction.
  destruct (Qle_bool 1 (inject_Z (Z.of_nat n) / d)) eqn:E.
  - split; [discriminate | apply Qle_refl].
  - split.
    + apply Qle_shift_div_l; [exact Hd|]. rewrite Qmult_0_l.
      change 0%Q with (inject_Z 0). rewrite <- Zle_Qle. lia.
    + apply Qlt_le_weak, Qnot_le_lt. intros H. apply Qle_bool_iff in H. congruence.
Qed.

Lemma iteration_report_bounds (r : reply) (st : loop_state) (t : list event)
    (res : py_result (control * loop_state)) :
  iteration filters select_fields progress r st = (t, res) ->
  Forall (fun x => 0 <= x /\ x <= 1)%Q (reports_of t).
Proof.
  intros H. apply iteration_reports in H.
  destruct H as [-> | (text & members & c & st' & _ & _ & _ & _ & _ & _ & _ & ->)];
    [constructor|].
  constructor; [|constructor].
  apply fraction_bounds, max_one_value_pos.
Qed.

Lemma fetch_loop_report_bounds (replies : list reply) (st : loop_state) :
  Forall (fun x => 0 <= x /\ x <= 1)%Q
         (reports_of (fst (fetch_loop filters select_fields progress replies st))).
Proof.
  revert st. induction replies as [|r rest IH]; intros st; simpl; [constructor|].
  destruct (iteration filters select_fields progress r st) as [t0 res] eqn:Hit.
  pose proof (iteration_report_bounds _ _ _ _ Hit) as H0.
  destruct res as [[[] st1]|e]; try exact H0.
  specialize (IH st1).
  destruct (fetch_loop filters select_fields progress rest st1) as [t1 o1].
  cbn [fst] in *. rewrite reports_of_app. apply Forall_app. now split.
Qed.

(** X12. Every fraction handed to the progress observer lies between 0
    and 1, both included, so the final report of 1 that the run handler makes
    after a successful fetch (line 151) keeps the reports in non-decreasing
    order. *)
Theorem progress_reports_within_bounds (replies : list reply) :
  let reports := reports_of (fst (fetch_all filters select_fields progress replies)) in
  Forall (fun x => 0 <= x /\ x <= 1)%Q reports
  /\ StronglySorted Qle (reports ++ [1%Q])%list.
Proof.
  intros reports.
  assert (Hb : Forall (fun x => 0 <= x /\ x <= 1)%Q reports)
    by apply fetch_loop_report_bounds.
  split; [exact Hb|].
  pose proof (fetch_all_reports_sorted filters select_fields progress replies) as Hs.
  fold reports in Hs. clear - Hb Hs.
  induction Hs as [|x l Hs IH Hall]; simpl; [repeat constructor|].
  inversion Hb as [|? ? [_ Hx] Hb']; subst.
  constructor; [now apply IH|].
  apply Forall_app. split; [exact Hall | repeat constructor; exact Hx].
Qed.

End FetchOutcomes.

Section FetchErrors.

Variable filters : string.
Variable select_fields : option (list string).
Variable progress : bool.

Lemma next_total_none (known : json) (members : list (string * json)) :
  next_total known members = None -> known = JNull /\ unreadable (JObj members).
Proof.
  unfold next_total, unreadable. destruct known; try discriminate.
  destruct (get "metadata" members) as [[]|]; try discriminate; auto.
Qed.

Lemma max_one_raises (total : json) :
  max_one total = ([], Raise TypeError) -> comparable total = false \/ total = JNull.
Proof. destruct total; simpl; unfold ret; try discriminate; auto. Qed.

Lemma max_one_incomparable (total : json) :
  comparable total = false -> max_one total = ([], Raise TypeError).
Proof. destruct total; simpl; try discriminate; reflexivity. Qed.

Lemma next_total_unreadable (members : list (string * json)) :
  unreadable (JObj members) -> next_total JNull members = None.
Proof.
  unfold next_total, unreadable.
  destruct (get "metadata" members) as [[]|]; try contradiction; reflexivity.
Qed.

(** X13. One pass of the loop body (lines 66-90) raises in exactly five
    situations, each decided by the reply to its request: a transport
    failure; a status other than 200, which gives the HTTP error; a body that
    is not JSON; a payload that is not an object, or, while the total count
    is still unknown, one whose metadata is not an object; and, only when a
    progress observer is given and the page has rows, a total count that is
    non-empty text, a non-empty list or a non-empty object.  In each of them
    the request was sent and nothing was reported to the observer. *)
Theorem loop_errors_come_from_the_reply (r : reply) (st : loop_state) (e : exn) :
  let raises :=
    (r = ConnectionFailure /\ e = RequestException)
    \/ (exists code text body,
          r = Response code text body /\ code <> 200 /\ e = http_error code text)
    \/ (exists text, r = Response 200 text None /\ e = JSONDecodeError)
    \/ (exists text payload,
          r = Response 200 text (Some payload)
          /\ unreadable payload
          /\ (forall members, payload = JObj members -> total_count st = JNull)
          /\ e = AttributeError)
    \/ (exists text members total,
          r = Response 200 text (Some (JObj members))
          /\ next_total (total_count st) members = Some total
          /\ page_rows members <> []
          /\ progress = true /\ truthy total = true /\ comparable total = false
          /\ e = TypeError) in
  (forall t, iteration filters select_fields progress r st = (t, Raise e) -> raises)
  /\ (raises ->
      iteration filters select_fields progress r st
      = ([Requested (request_url filters select_fields (skip st))], Raise e)).
Proof.
  intros raises. subst raises. split.
  - intros t H. destruct r as [|code text body].
    { rewrite iteration_connection_failure in H. injection H as _ <-. now left. }
    destruct (Z.eq_dec code 200) as [->|Hne].
    2:{ rewrite iteration_bad_status in H by assumption. injection H as _ <-.
        right. left. now exists code, text, body. }
    destruct body as [payload|].
    2:{ injection H as _ <-. right. right. left. now exists text. }
    destruct payload as [| | | | |members];
      try (injection H as _ <-; right; right; right; left;
           eexists _, _; repeat split; try exact I; intros; discriminate).
    destruct (next_total (total_count st) members) as [total|] eqn:Htotal.
    2:{ rewrite (iteration_bad_total _ _ _ _ _ _ Htotal) in H. injection H as _ <-.
        right. right. right. left. exists text, (JObj members).
        destruct (next_total_none _ _ Htotal) as [Hk Hu].
        repeat split; [exact Hu | intros; exact Hk]. }
    destruct (page_rows members) as [|row rows] eqn:Hrows.
    { rewrite (iteration_no_rows _ _ _ _ _ _ _ Hrows Htotal) in H. discriminate. }
    assert (Hrn : page_rows members <> []) by (rewrite Hrows; discriminate).
    destruct (progress && truthy total) eqn:Hq.
    + destruct (max_one_cases total) as [Hd | Hd].
      * rewrite (iteration_rows_reported _ _ _ _ _ _ _ _ Hrn Htotal Hq Hd) in H.
        discriminate.
      * rewrite (iteration_rows_type_error _ _ _ _ _ _ _ Hrn Htotal Hq Hd) in H.
        injection H as _ <-. apply andb_true_iff in Hq. destruct Hq as [Hp Ht].
        right. right. right. right. exists text, members, total.
        repeat split; try assumption.
        destruct (max_one_raises _ Hd) as [Hc | ->]; [exact Hc | discriminate].
    + rewrite (iteration_rows_quiet _ _ _ _ _ _ _ Hrn Htotal Hq) in H. discriminate.
  - intros [[-> ->] | [(code & text & body & -> & Hne & ->) | [(text & -> & ->) |
      [(text & payload & -> & Hu & Hk & ->) |
       (text & members & total & -> & Htotal & Hrn & Hp & Ht & Hc & ->)]]]].
    + apply iteration_connection_failure.
    + now apply iteration_bad_status.
    + reflexivity.
    + destruct payload as [| | | | |members]; try reflexivity.
      apply iteration_bad_total. rewrite (Hk members eq_refl).
      now apply next_total_unreadable.
    + apply (iteration_rows_type_error _ _ _ _ _ _ _ Hrn Htotal).
      * now rewrite Hp, Ht.
      * now apply max_one_incomparable.
Qed.

End FetchErrors.

Lemma loop_errors_come_from_the_reply_witness :
  iteration "incidentType eq 'Fire'" None true
    (Response 200 "" (Some (JObj [("metadata", JObj [("count", JStr "12")]);
                                  ("items", JList [sample_row])])))
    initial_state
  = ([Requested (request_url "incidentType eq 'Fire'" None 0)], Raise TypeError).
Proof.
  apply (proj2 (loop_errors_come_from_the_reply "incidentType eq 'Fire'" None true
                  (Response 200 ""
                     (Some (JObj [("metadata", JObj [("count", JStr "12")]);
                                  ("items", JList [sample_row])])))
                  initial_state TypeError)).
  right. right. right. right.
  exists "", [("metadata", JObj [("count", JStr "12")]); ("items", JList [sample_row])],
         (JStr "12").
  repeat split. discriminate.
Defined.

Section FetchTotal.

Variable filters : string.
Variable select_fields : option (list string).
Variable progress : bool.

Lemma fetch_loop_total_known (replies : list reply) (st : loop_state)
    (t : list event) (df : list json) (u : string) (total : json) :
  fetch_loop filters select_fields progress replies st = (t, Returned df u total) ->
  total_count st <> JNull ->
  total = or_zero (total_count st).
Proof.
  revert st t. induction replies as [|r rest IH]; intros st t H Hn; simpl in H;
    [discriminate|].
  destruct (iteration filters select_fields progress r st) as [t0 res] eqn:Hit.
  destruct res as [[[] st1]|e]; [| |discriminate];
    destruct (iteration_keeps_total _ _ _ _ _ _ _ _ Hit) as [Hk _];
    specialize (Hk Hn).
  - destruct (fetch_loop filters select_fields progress rest st1) as [t1 o1] eqn:Hrun.
    injection H as _ ->. rewrite <- Hk. apply (IH _ _ Hrun). now rewrite Hk.
  - injection H as _ _ _ <-. now rewrite Hk.
Qed.

Lemma fetch_loop_total_absent (replies : list reply) (st : loop_state)
    (t : list event) (df : list json) (u : string) (total : json) :
  fetch_loop filters select_fields progress replies st = (t, Returned df u total) ->
  truthy (total_count st) = false ->
  (forall r, In r replies -> carries_count r = false) ->
  total = JNum 0.
Proof.
  revert st t. induction replies as [|r rest IH]; intros st t H Hf Hall; simpl in H;
    [discriminate|].
  destruct (iteration filters select_fields progress r st) as [t0 res] eqn:Hit.
  assert (Hnext : forall c st1, res = Ok (c, st1) -> truthy (total_count st1) = false).
  { intros c st1 ->. pose proof (iteration_inv _ _ _ _ _ _ _ Hit) as Hi.
    destruct Hi as [[_ [e He]] | (text & members & total0 & -> & Htotal & Hi)];
      [discriminate|].
    assert (Hft : truthy total0 = false).
    { destruct (truthy total0) eqn:Ht; [|reflexivity].
      destruct (next_total_source _ _ _ Htotal Ht) as [[_ ->] | [_ Hc]]; [congruence|].
      assert (Hr : carries_count (Response 200 text (Some (JObj members))) = false)
        by (apply Hall; now left).
      simpl in Hr. rewrite Hc in Hr. congruence. }
    destruct Hi as [(_ & _ & E) | (_ & E & _)]; injection E as _ ->; exact Hft. }
  destruct res as [[[] st1]|e]; [| |discriminate].
  - destruct (fetch_loop filters select_fields progress rest st1) as [t1 o1] eqn:Hrun.
    injection H as _ ->. apply (IH _ _ Hrun (Hnext _ _ eq_refl)).
    intros r' Hr'. apply Hall. now right.
  - injection H as _ _ _ <-. unfold or_zero. now rewrite (Hnext _ _ eq_refl).
Qed.

(** X14. The total count is read once: when the first reply carries a
    count that is not null, the total the function returns is that count
    (0 when it is zero or empty), whatever counts later pages carry; when no
    reply carries a usable count, the total returned is 0. *)
Theorem total_count_is_read_once (text : string) (members : list (string * json))
    (rest : list reply) (c : json) (df : list json) (u : string) (total : json) :
  (count_member members = Some c -> c <> JNull ->
   snd (fetch_all filters select_fields progress
          (Response 200 text (Some (JObj members)) :: rest))
   = Returned df u total ->
   total = or_zero c)
  /\ (forall replies,
        (forall r, In r replies -> carries_count r = false) ->
        snd (fetch_all filters select_fields progress replies) = Returned df u total ->
        total = JNum 0).
Proof.
  split.
  - intros Hc Hn. unfold fetch_all. cbn [fetch_loop].
    destruct (iteration filters select_fields progress
                (Response 200 text (Some (JObj members))) initial_state)
      as [t0 res] eqn:Hit.
    assert (Hst : forall k st1, res = Ok (k, st1) -> total_count st1 = c).
    { intros k st1 ->. pose proof (iteration_inv _ _ _ _ _ _ _ Hit) as Hi.
      destruct Hi as [[_ [e He]] | (text' & members' & total0 & E & Htotal & Hi)];
        [discriminate|].
      injection E as _ <-.
      assert (total0 = c).
      { unfold next_total, count_member in *. cbn [initial_state total_count] in Htotal.
        destruct (get "metadata" members) as [[]|]; try discriminate.
        rewrite Hc in Htotal. congruence. }
      subst total0.
      destruct Hi as [(_ & _ & E) | (_ & E & _)]; injection E as _ ->; reflexivity. }
    destruct res as [[[] st1]|e]; [| |discriminate].
    + destruct (fetch_loop filters select_fields progress rest st1) as [t1 o1] eqn:Hrun.
      cbn [snd]. intros ->. rewrite <- (Hst _ _ eq_refl).
      apply (fetch_loop_total_known _ _ _ _ _ _ Hrun). now rewrite (Hst _ _ eq_refl).
    + cbn [snd]. intros H. injection H as _ _ <-. now rewrite (Hst _ _ eq_refl).
  - intros replies Hall. unfold fetch_all.
    destruct (fetch_loop filters select_fields progress replies initial_state)
      as [t o] eqn:Hrun.
    cbn [snd]. intros ->. now apply (fetch_loop_total_absent _ _ _ _ _ _ Hrun).
Qed.

End FetchTotal.

Lemma total_count_is_read_once_witness :
  snd (fetch_all "incidentType eq 'Fire'" None false
         [page_reply 7 (repeat sample_row 1000); page_reply 9 [sample_row]])
  = Returned (repeat sample_row 1000 ++ [sample_row])
             (request_url "incidentType eq 'Fire'" None 1000) (JNum 7)
  /\ JNum 7 = or_zero (JNum 7).
Proof.
  assert (H : snd (fetch_all "incidentType eq 'Fire'" None false
                     [page_reply 7 (repeat sample_row 1000); page_reply 9 [sample_row]])
              = Returned (repeat sample_row 1000 ++ [sample_row])
                         (request_url "incidentType eq 'Fire'" None 1000) (JNum 7))
    by (vm_compute; reflexivity).
  split; [exact H|].
  exact (proj1 (total_count_is_read_once "incidentType eq 'Fire'" None false ""
                  [("metadata", JObj [("count", JNum 7)]);
                   ("PublicAssistanceGrantAwardActivities",
                    JList (repeat sample_row 1000))]
                  [page_reply 9 [sample_row]]
                  (JNum 7) (repeat sample_row 1000 ++ [sample_row])
                  (request_url "incidentType eq 'Fire'" None 1000) (JNum 7))
           eq_refl ltac:(discriminate) H).
Defined.

(** ** More on summarize *)

Lemma sort_insert_perm {D} (x : summary_row D) (l : list (summary_row D)) :
  Permutation (sort_insert x l) (x :: l).
Proof.
  induction l as [|y l IH]; simpl; [reflexivity|].
  destruct (sort_le x y); [reflexivity|].
  rewrite IH. apply perm_swap.
Qed.

Lemma sort_values_perm {D} (l : list (summary_row D)) :
  Permutation (sort_values l) l.
Proof.
  induction l as [|x l IH]; simpl; [reflexivity|].
  rewrite sort_insert_perm. now constructor.
Qed.

Lemma key_lt_sorted_nodup (l : list key) : StronglySorted key_lt l -> NoDup l.
Proof.
  induction 1 as [|k l Hs IH Hall]; constructor; [|exact IH].
  intros Hin. rewrite Forall_forall in Hall. specialize (Hall k Hin).
  unfold key_lt in Hall. rewrite (proj2 (key_compare_eq k k) eq_refl) in Hall.
  discriminate.
Qed.

Lemma groupby_keys (sdf : list prepared) :
  map (fun g => summary_key (agg g)) (groupby sdf) = group_keys (map key_of sdf).
Proof.
  unfold groupby. rewrite map_map.
  rewrite <- (map_id (group_keys (map key_of sdf))) at 2.
  apply map_ext. now intros [[st id] name].
Qed.

Section SummaryShape.

Variable to_datetime : text_cell -> option Z.
Variable date_str : option Z -> string.

Lemma grouped_keys_perm (df : DataFrame) (include exclude : list string) :
  Permutation
    (map summary_key (grouped to_datetime date_str df include exclude))
    (group_keys (map key_of (map (prepare to_datetime) (matching df include exclude)))).
Proof.
  unfold grouped. rewrite map_map, <- groupby_keys.
  rewrite <- (map_map agg (fun g => summary_key (render date_str g))).
  apply Permutation_map, sort_values_perm.
Qed.

(** X16. The summary has one row per key: no two groups share their
    (state, applicant identifier, applicant name), every matching row
    belongs to a group of the summary, and there are no more groups than
    matching rows. *)
Theorem summary_has_one_row_per_key (df : DataFrame) (include exclude : list string)
    (groups : list UtilitySummary) :
  summarize to_datetime date_str df include exclude = Ok (Summary groups) ->
  NoDup (map summary_key groups)
  /\ (forall r, In r (matching df include exclude) ->
      exists g, In g groups /\ summary_key g = key_of (prepare to_datetime r))
  /\ (List.length groups <= List.length (matching df include exclude))%nat.
Proof.
  intros H. rewrite (summarize_summary_inv _ _ _ _ _ _ H).
  pose proof (grouped_keys_perm df include exclude) as Hp.
  destruct (group_keys_spec
              (map key_of (map (prepare to_datetime) (matching df include exclude))))
    as [Hs Hin].
  apply key_lt_sorted_nodup in Hs.
  split; [|split].
  - eapply Permutation_NoDup; [symmetry; exact Hp | exact Hs].
  - intros r Hr.
    assert (Hk : In (key_of (prepare to_datetime r))
                    (map summary_key (grouped to_datetime date_str df include exclude))).
    { eapply Permutation_in; [symmetry; exact Hp|]. apply Hin.
      apply in_map, in_map, Hr. }
    apply in_map_iff in Hk. destruct Hk as [g [Hg Hing]]. now exists g.
  - assert (E1 : List.length (grouped to_datetime date_str df include exclude)
                 = List.length (map summary_key
                                    (grouped to_datetime date_str df include exclude)))
      by (symmetry; apply length_map).
    assert (E2 : List.length (matching df include exclude)
                 = List.length (map key_of (map (prepare to_datetime)
                                                (matching df include exclude))))
      by now rewrite !length_map.
    rewrite E1, E2, (Permutation_length Hp).
    apply NoDup_incl_length; [exact Hs|]. intros k Hk. now apply Hin.
Qed.

(** X19. A frame with rows and columns that lacks a column [summarize]
    reads makes it raise [KeyError] for the first such column in the order
    the function reads them: the amount, the date, then the grouping keys
    state, applicant identifier and applicant name; this whatever the
    keywords, even when no row matches. *)
Theorem missing_column_raises_key_error (df : DataFrame) (include exclude : list string)
    (present : list string) (c : string) (later : list string) :
  empty df = false ->
  required_columns = (present ++ c :: later)%list ->
  (forall c', In c' present -> In c' (columns df)) ->
  ~ In c (columns df) ->
  summarize to_datetime date_str df include exclude = Raise (KeyError c).
Proof.
  intros He Hs Hp Hc. unfold summarize, missing_column. rewrite He.
  change ["federalShareObligated"; "dateObligated"; "stateAbbreviation";
          "applicantId"; "applicantName"] with required_columns.
  rewrite Hs.
  assert (E : find (fun c0 => negb (has_label (columns df) c0)) (present ++ c :: later)
              = Some c).
  { clear Hs. induction present as [|x l IH]; cbn [app find].
    - destruct (has_label (columns df) c) eqn:E; [|reflexivity].
      apply has_label_iff in E. contradiction.
    - rewrite (proj2 (has_label_iff _ _) (Hp x (or_introl eq_refl))). cbn [negb].
      apply IH. intros c' Hc'. apply Hp. now right. }
  now rewrite E.
Qed.

Lemma matching_idem (df : DataFrame) (include exclude : list string) :
  matching (mk_frame (columns df) (matching df include exclude)) include exclude
  = matching df include exclude.
Proof.
  unfold matching. cbn [columns rows].
  induction (rows df) as [|r l IH]; simpl; [reflexivity|].
  destruct (is_water_utility (mk_series (columns df) r) include exclude) eqn:E;
    simpl; [now rewrite E, IH | exact IH].
Qed.

(** X20. Classifying twice changes nothing, and the summary of the
    detailed view is the summary of the whole frame: for a frame with rows
    and columns of which some row matches, [summarize] gives the same result
    on the frame of the matching rows as on the frame itself. *)
Theorem summary_of_detailed_view (df : DataFrame) (include exclude : list string) :
  empty df = false ->
  matching df include exclude <> [] ->
  matching (mk_frame (columns df) (matching df include exclude)) include exclude
  = matching df include exclude
  /\ summarize to_datetime date_str
       (mk_frame (columns df) (matching df include exclude)) include exclude
     = summarize to_datetime date_str df include exclude.
Proof.
  intros He Hne. split; [apply matching_idem|].
  unfold summarize. rewrite matching_idem, He.
  replace (empty (mk_frame (columns df) (matching df include exclude))) with false;
    [reflexivity|].
  unfold empty in *. cbn [rows columns].
  destruct (matching df include exclude); [contradiction|].
  destruct (rows df); [discriminate|]. destruct (columns df); [discriminate | reflexivity].
Qed.

End SummaryShape.

Lemma summary_has_one_row_per_key_witness :
  NoDup (map summary_key
           [group_row "AZ" (Some "9") "Yuma Irrigation District" 1 20;
            group_row "CA" (Some "1") "Alpine Water Company" 1 1500;
            group_row "CA" (Some "2") "Butte Water Works" 1 500]).
Proof.
  assert (H : summarize no_date nat_text frame_with_three_groups
                ["water"; "irrigation"] []
              = Ok (Summary
                      [group_row "AZ" (Some "9") "Yuma Irrigation District" 1 20;
                       group_row "CA" (Some "1") "Alpine Water Company" 1 1500;
                       group_row "CA" (Some "2") "Butte Water Works" 1 500]))
    by (vm_compute; reflexivity).
  exact (proj1 (summary_has_one_row_per_key no_date nat_text frame_with_three_groups
                  ["water"; "irrigation"] [] _ H)).
Defined.

Lemma missing_column_raises_key_error_witness :
  summarize no_date nat_text
    (mk_frame ["stateAbbreviation"; "applicantName"; "federalShareObligated";
               "dateObligated"]
              [award_row "CA" (TStr "1") "City Police Department" (NNum 50)])
    ["water"] []
  = Raise (KeyError "applicantId").
Proof.
  apply (missing_column_raises_key_error no_date nat_text
           (mk_frame ["stateAbbreviation"; "applicantName"; "federalShareObligated";
                      "dateObligated"]
                     [award_row "CA" (TStr "1") "City Police Department" (NNum 50)])
           ["water"] []
           ["federalShareObligated"; "dateObligated"; "stateAbbreviation"]
           "applicantId" ["applicantName"]).
  - reflexivity.
  - reflexivity.
  - intros c' Hc'. simpl in *. intuition congruence.
  - simpl. intros [H | [H | [H | [H | []]]]]; discriminate.
Defined.

Lemma summary_of_detailed_view_witness :
  summarize no_date nat_text
    (mk_frame (columns frame_with_other_rows)
              (matching frame_with_other_rows ["water"] [])) ["water"] []
  = summarize no_date nat_text frame_with_other_rows ["water"] [].
Proof.
  apply (proj2 (summary_of_detailed_view no_date nat_text frame_with_other_rows
                  ["water"] [] eq_refl ltac:(discriminate))).
Defined.


(** ** Counts and dates of the groups *)

Lemma qsum_perm (l l' : list Q) : Permutation l l' -> (qsum l == qsum l')%Q.
Proof.
  induction 1 as [|x l l' _ IH|x y l|l l' l'' _ IH1 _ IH2]; simpl.
  - reflexivity.
  - now rewrite IH.
  - rewrite !Qplus_assoc. now rewrite (Qplus_comm y x).
  - now rewrite IH1.
Qed.

Lemma qsum_map_plus {A} (f g : A -> Q) (l : list A) :
  (qsum (map (fun k => f k + g k) l) == qsum (map f l) + qsum (map g l))%Q.
Proof.
  induction l as [|k l IH]; simpl; [now rewrite Qplus_0_l|].
  rewrite IH. ring.
Qed.

Lemma qsum_map_ext {A} (f g : A -> Q) (l : list A) :
  (forall k, In k l -> f k == g k)%Q -> (qsum (map f l) == qsum (map g l))%Q.
Proof.
  induction l as [|k l IH]; intros H; simpl; [reflexivity|].
  rewrite (H k (or_introl eq_refl)), IH; [reflexivity|].
  intros k' Hk'. apply H. now right.
Qed.

Lemma qsum_zero {A} (l : list A) : (qsum (map (fun _ => 0%Q) l) == 0)%Q.
Proof. induction l as [|k l IH]; simpl; [reflexivity | rewrite IH; ring]. Qed.

Lemma qsum_indicator (k0 : key) (x : Q) (keys : list key) :
  NoDup keys -> In k0 keys ->
  (qsum (map (fun k => if key_eqb k0 k then x else 0%Q) keys) == x)%Q.
Proof.
  induction 1 as [|k l Hnot Hnd IH]; intros Hin; [contradiction|].
  simpl. unfold key_eqb at 1. destruct Hin as [-> | Hin].
  - rewrite (proj2 (key_compare_eq k0 k0) eq_refl).
    rewrite (qsum_map_ext _ (fun _ => 0%Q)).
    + rewrite qsum_zero. ring.
    + intros k Hk. unfold key_eqb.
      destruct (key_compare k0 k) eqn:E; try reflexivity.
      apply key_compare_eq in E. subst. contradiction.
  - destruct (key_compare k0 k) eqn:E.
    + apply key_compare_eq in E. subst. contradiction.
    + rewrite (IH Hin). ring.
    + rewrite (IH Hin). ring.
Qed.

(** The sums of the parts of a list, split by key, add up to the sum of the
    list. *)
Lemma qsum_partition {A} (key_of' : A -> key) (m : A -> Q) (keys : list key)
    (l : list A) :
  NoDup keys -> (forall a, In a l -> In (key_of' a) keys) ->
  (qsum (map (fun k => qsum (map m (filter (fun a => key_eqb (key_of' a) k) l))) keys)
   == qsum (map m l))%Q.
Proof.
  intros Hnd. induction l as [|a l IH]; intros Hcov.
  - simpl. apply qsum_zero.
  - rewrite (qsum_map_ext _
               (fun k => (if key_eqb (key_of' a) k then m a else 0)
                         + qsum (map m (filter (fun a' => key_eqb (key_of' a') k) l)))%Q).
    + rewrite qsum_map_plus, IH, qsum_indicator.
      * reflexivity.
      * exact Hnd.
      * apply Hcov. now left.
      * intros a' Ha'. apply Hcov. now right.
    + intros k _. cbn [filter]. destruct (key_eqb (key_of' a) k); simpl; ring.
Qed.

Lemma qsum_inject (l : list Z) : (qsum (map inject_Z l) == inject_Z (zsum l))%Q.
Proof.
  induction l as [|x l IH]; simpl; [reflexivity|].
  rewrite IH. now rewrite inject_Z_plus.
Qed.

Lemma count_as_qsum (cells : list text_cell) :
  (inject_Z (count cells)
   == qsum (map (fun v => if notna v then 1 else 0) cells))%Q.
Proof.
  unfold count. induction cells as [|v l IH]; [reflexivity|].
  cbn [filter map]. change (qsum (?x :: ?t)) with (x + qsum t)%Q.
  rewrite <- IH. destruct (notna v).
  - cbn [List.length]. rewrite Nat2Z.inj_succ, <- Z.add_1_l, inject_Z_plus. reflexivity.
  - ring.
Qed.

Section SummaryCounts.

Variable to_datetime : text_cell -> option Z.
Variable date_str : option Z -> string.

(** X21. The project counts of the groups add up to the number of matching
    rows whose applicant identifier is present: a row without identifier is
    in a group but in no count. *)
Theorem project_counts_add_up (df : DataFrame) (include exclude : list string)
    (groups : list UtilitySummary) :
  summarize to_datetime date_str df include exclude = Ok (Summary groups) ->
  zsum (map projectCount groups)
  = count (map applicantId (matching df include exclude)).
Proof.
  intros H. apply inject_Z_injective.
  rewrite <- qsum_inject, count_as_qsum.
  rewrite (summarize_summary_inv _ _ _ _ _ _ H). unfold grouped.
  rewrite !map_map. cbn [render projectCount].
  set (sdf := map (prepare to_datetime) (matching df include exclude)).
  set (m := fun p : prepared => if notna (applicantId (award p)) then 1%Q else 0%Q).
  rewrite (qsum_perm _ (map (fun g => inject_Z (projectCount g)) (map agg (groupby sdf))))
    by (apply Permutation_map, sort_values_perm).
  unfold groupby. rewrite !map_map.
  rewrite (qsum_map_ext _
             (fun k => qsum (map m (filter (fun p => key_eqb (key_of p) k) sdf)))).
  - rewrite qsum_partition.
    + unfold sdf, m. rewrite map_map. reflexivity.
    + apply key_lt_sorted_nodup, group_keys_spec.
    + intros p Hp. apply group_keys_spec. now apply in_map.
  - intros [[st id] name] _. cbn [agg projectCount].
    rewrite count_as_qsum, map_map. reflexivity.
Qed.

End SummaryCounts.

Lemma project_counts_add_up_witness :
  zsum (map projectCount [group_row "CA" None "Paradise Water District" 0 100])
  = count (map applicantId (matching frame_without_id ["water"] [])).
Proof.
  assert (H : summarize no_date nat_text frame_without_id ["water"] []
              = Ok (Summary [group_row "CA" None "Paradise Water District" 0 100]))
    by (vm_compute; reflexivity).
  exact (project_counts_add_up no_date nat_text frame_without_id ["water"] [] _ H).
Defined.

Section Extremes.

Variable pick : Z -> Z -> Z.
Variable R : Z -> Z -> Prop.
Hypothesis pick_l : forall a b, R (pick a b) a.
Hypothesis pick_r : forall a b, R (pick a b) b.
Hypothesis pick_one : forall a b, pick a b = a \/ pick a b = b.
Hypothesis R_trans : forall a b c, R a b -> R b c -> R a c.
Hypothesis R_refl : forall a, R a a.

Let step (acc d : option Z) : option Z :=
  match acc, d with
  | Some a, Some b => Some (pick a b)
  | None, _ => d
  | _, None => acc
  end.

Lemma extreme_from (dates : list (option Z)) (acc : option Z) :
  match fold_left step dates acc with
  | Some a =>
      (acc = Some a \/ In (Some a) dates)
      /\ forall d, acc = Some d \/ In (Some d) dates -> R a d
  | None => acc = None /\ forall x, In x dates -> x = None
  end.
Proof.
  revert acc. induction dates as [|x l IH]; intros acc; simpl.
  - destruct acc as [a|]; [|split; [reflexivity | tauto]].
    split; [now left|]. intros d [E | []]. injection E as <-. apply R_refl.
  - specialize (IH (step acc x)).
    destruct (fold_left step l (step acc x)) as [a|].
    + destruct IH as [Hin Hb]. split.
      * destruct Hin as [E | Hin]; [|now right; right].
        destruct acc as [c|], x as [y|]; simpl in E; auto.
        injection E as E. destruct (pick_one c y) as [P | P]; rewrite P in E; subst; auto.
      * intros d Hd. destruct Hd as [E | [E | Hd]].
        -- subst acc. destruct x as [y|]; simpl in Hb.
           ++ apply R_trans with (b := pick d y); [apply Hb; now left | apply pick_l].
           ++ apply Hb. now left.
        -- subst x. destruct acc as [c|]; simpl in Hb.
           ++ apply R_trans with (b := pick c d); [apply Hb; now left | apply pick_r].
           ++ apply Hb. now left.
        -- apply Hb. now right.
    + destruct IH as [E Hall]. destruct acc as [c|], x as [y|]; simpl in E;
        try discriminate.
      split; [reflexivity|]. intros z [<- | Hz]; [reflexivity | now apply Hall].
Qed.

End Extremes.

Lemma extreme_min_spec (dates : list (option Z)) :
  match extreme Z.min dates with
  | Some a => In (Some a) dates /\ forall d, In (Some d) dates -> a <= d
  | None => forall x, In x dates -> x = None
  end.
Proof.
  pose proof (extreme_from Z.min Z.le Z.le_min_l Z.le_min_r
                ltac:(intros a b; destruct (Z.min_spec a b) as [[_ E] | [_ E]]; auto)
                Z.le_trans Z.le_refl dates None) as H.
  unfold extreme. cbv zeta in H. destruct (fold_left _ dates None) as [a|].
  - destruct H as [[E | Hin] Hb]; [discriminate|]. split; [exact Hin|].
    intros d Hd. apply Hb. now right.
  - exact (proj2 H).
Qed.

Lemma extreme_max_spec (dates : list (option Z)) :
  match extreme Z.max dates with
  | Some b => In (Some b) dates /\ forall d, In (Some d) dates -> d <= b
  | None => forall x, In x dates -> x = None
  end.
Proof.
  pose proof (extreme_from Z.max (fun a b => b <= a) Z.le_max_l Z.le_max_r
                ltac:(intros a b; destruct (Z.max_spec a b) as [[_ E] | [_ E]]; auto)
                ltac:(intros a b c H1 H2; cbv beta in *; lia)
                Z.le_refl dates None) as H.
  unfold extreme. cbv zeta in H. destruct (fold_left _ dates None) as [b|].
  - destruct H as [[E | Hin] Hb]; [discriminate|]. split; [exact Hin|].
    intros d Hd. apply Hb. now right.
  - exact (proj2 H).
Qed.

(** X18. In every group the first date is the earliest and the last date
    the latest of the dates that could be read, so the first never comes
    after the last; the two are [NaT] together, exactly when no date of the
    group could be read. *)
Theorem group_dates_are_extremes (g : key * list prepared) :
  let dates := map obligated (snd g) in
  match firstDateObligated (agg g), lastDateObligated (agg g) with
  | Some a, Some b =>
      a <= b /\ In (Some a) dates /\ In (Some b) dates
      /\ forall d, In (Some d) dates -> a <= d <= b
  | None, None => forall x, In x dates -> x = None
  | _, _ => False
  end.
Proof.
  destruct g as [[[st id] name] members]. cbv zeta.
  cbn [agg firstDateObligated lastDateObligated snd].
  set (dates := map obligated members).
  pose proof (extreme_min_spec dates) as Hmin.
  pose proof (extreme_max_spec dates) as Hmax.
  destruct (extreme Z.min dates) as [a|], (extreme Z.max dates) as [b|].
  - destruct Hmin as [Ha Hlo], Hmax as [Hb Hhi].
    split; [now apply Hlo|]. repeat split; auto.
  - destruct Hmin as [Ha _]. specialize (Hmax _ Ha). discriminate.
  - destruct Hmax as [Hb _]. specialize (Hmin _ Hb). discriminate.
  - exact Hmin.
Qed.

(** ** More on build_filter *)

Lemma group_nil_iff (field : string) (codes : list string) :
  group field codes = [] <-> codes = [].
Proof. destruct codes; simpl; split; congruence. Qed.

Lemma date_clause_nil_iff (op : string) (d : option string) :
  date_clause op d = [] <-> usable d = false.
Proof. destruct d as [[|c v]|]; simpl; split; congruence. Qed.

(** X22. The expression always begins with the incident clause, any
    further clause being joined to it by [ and ]; it is the incident clause
    alone exactly when no category and no state entry is left after trimming
    and neither date is given. *)
Theorem build_filter_starts_with_incident
    (states : option (list string)) (start end_ : option string)
    (categories : list string) (incident_contains : bool) :
  (exists rest,
     build_filter states start end_ categories incident_contains
     = incident_clause incident_contains ++ rest
     /\ (rest = "" \/ exists more, rest = " and " ++ more))
  /\ (build_filter states start end_ categories incident_contains
      = incident_clause incident_contains
      <-> emitted_codes categories = []
          /\ emitted_codes (entries_of states) = []
          /\ usable start = false /\ usable end_ = false).
Proof.
  unfold build_filter. rewrite filter_parts_groups. cbn [app].
  set (tail := (group "damageCategoryCode" (emitted_codes categories)
                ++ group "stateAbbreviation" (emitted_codes (entries_of states))
                ++ date_clause "ge" start ++ date_clause "le" end_)%list).
  assert (Htail : tail = [] <->
                  emitted_codes categories = []
                  /\ emitted_codes (entries_of states) = []
                  /\ usable start = false /\ usable end_ = false).
  { unfold tail. split.
    - intros H. apply app_eq_nil in H. destruct H as [H1 H].
      apply app_eq_nil in H. destruct H as [H2 H].
      apply app_eq_nil in H. destruct H as [H3 H4].
      rewrite group_nil_iff in H1, H2. rewrite date_clause_nil_iff in H3, H4. auto.
    - intros (H1 & H2 & H3 & H4).
      apply (proj2 (date_clause_nil_iff "ge" start)) in H3.
      apply (proj2 (date_clause_nil_iff "le" end_)) in H4.
      now rewrite H1, H2, H3, H4. }
  destruct tail as [|y l].
  - split; [exists ""; split; [|now left]|].
    + simpl. clear. induction (incident_clause incident_contains); simpl; congruence.
    + split; [intros _; now apply Htail | reflexivity].
  - rewrite join_cons2. split.
    + eexists. split; [reflexivity|]. right. eexists. reflexivity.
    + split.
      * intros H. apply (f_equal String.length) in H.
        rewrite !length_append in H. simpl in H. lia.
      * intros H. apply Htail in H. discriminate.
Qed.

Lemma build_filter_starts_with_incident_witness :
  build_filter (Some [" "]) (Some "") None [""] true = incident_clause true.
Proof.
  apply (proj2 (build_filter_starts_with_incident (Some [" "]) (Some "") None [""] true)).
  repeat split.
Defined.

Lemma group_dates_are_extremes_witness : 2 <= 5.
Proof.
  exact (proj1 (group_dates_are_extremes
                  ((Some "CA", Some "1", Some "Alpine Water Company"),
                   [mk_prepared (award_row "CA" (TStr "1") "Alpine Water Company" NNone)
                                0 (Some 5);
                    mk_prepared (award_row "CA" (TStr "1") "Alpine Water Company" NNone)
                                0 None;
                    mk_prepared (award_row "CA" (TStr "1") "Alpine Water Company" NNone)
                                0 (Some 2)]))).
Defined.

Section GroupContents.

Variable to_datetime : text_cell -> option Z.
Variable date_str : option Z -> string.

(** X15. Each group of a summary holds at least one matching row, and
    its project count is the number of its rows when the applicant
    identifier is present, and 0 when it is missing. *)
Theorem groups_hold_their_rows (df : DataFrame) (include exclude : list string)
    (groups : list UtilitySummary) (g : UtilitySummary) :
  summarize to_datetime date_str df include exclude = Ok (Summary groups) ->
  In g groups ->
  let members :=
    filter (fun r => key_eqb (key_of (prepare to_datetime r)) (summary_key g))
           (matching df include exclude) in
  members <> []
  /\ projectCount g
     = match summaryApplicantId g with
       | Some _ => Z.of_nat (List.length members)
       | None => 0
       end.
Proof.
  intros H Hg.
  destruct (summary_group_contents to_datetime date_str df include exclude groups g H Hg)
    as [Hne [_ Hc]].
  split; [exact Hne | exact Hc].
Qed.

End GroupContents.

Lemma groups_hold_their_rows_witness :
  projectCount (group_row "CA" (Some "007-U1") "Paradise Water District" 2 100)
  = Z.of_nat (List.length (rows frame_with_id)).
Proof.
  exact (proj2 (groups_hold_their_rows no_date nat_text frame_with_id
                  ["water"] [] _ _ project_count_with_applicant_id
                  (or_introl eq_refl))).
Defined.

